(** * Verification of the HDB resale data-cleaning utilities (src/utils.py)

    The development embeds the functions of [src/utils.py] in Rocq and
    proves the properties stated for them.

    Modelling conventions.
    - A Python value held by a DataFrame cell is a [pyval]: [None], a
      float, an int, a str or a timestamp.
    - A Python [str] is a Rocq [string] read as a sequence of ASCII code
      points; the character classes used by the source ([\d], white space,
      lower-case letters) are the ASCII ones.
    - A Python [int] is a [Z] (unbounded, as in Python).
    - A Python [float] is a [pyfloat]: nan, the two infinities, or a finite
      value held as a canonical rational [Qc], so that Leibniz equality is
      numeric equality.  Conversions that Python refuses with
      [OverflowError] are modelled with the binary64 threshold; the last-bit
      rounding of binary64 arithmetic and the sign of zero are not
      modelled.
    - Code that can raise returns a [result]; the exception names are the
      Python ones.
    - A DataFrame is a list of rows over a list of column labels.  The
      pandas operations that the source calls are modelled by what they do
      to the cells of a column, with the cases in which they raise. *)

From Stdlib Require Import ZArith QArith Qabs Qcanon Lia String Ascii List Bool.
From stdpp Require Import base option list gmap strings pretty.

Local Open Scope Z_scope.

(** ** Exceptions and the error monad *)

Inductive exn : Type :=
  | TypeError
  | ValueError
  | OverflowError
  | KeyError
  | AttributeError.

#[global] Instance exn_eq_dec : EqDecision exn.
Proof. solve_decision. Defined.

Inductive result (A : Type) : Type :=
  | Ok (a : A)
  | Raise (e : exn).
Arguments Ok {A} a.
Arguments Raise {A} e.

Definition bind {A B : Type} (r : result A) (k : A -> result B) : result B :=
  match r with
  | Ok a => k a
  | Raise e => Raise e
  end.

Notation "'let!' x ':=' r 'in' k" := (bind r (fun x => k))
  (at level 10, x pattern, r at level 100, k at level 200).

(** [for v in l: f v], stopping at the first exception. *)
Fixpoint map_result {A B : Type} (f : A -> result B) (l : list A)
  : result (list B) :=
  match l with
  | [] => Ok []
  | a :: l' =>
      let! b := f a in
      let! bs := map_result f l' in
      Ok (b :: bs)
  end.

#[global] Instance result_eq_dec {A : Type} `{EqDecision A} :
  EqDecision (result A).
Proof. solve_decision. Defined.

Definition is_ok {A : Type} (r : result A) : bool :=
  match r with Ok _ => true | Raise _ => false end.

(** ** Python floats *)

Inductive pyfloat : Type :=
  | NaN
  | PInf
  | NInf
  | Fin (q : Qc).

(** [k] tenths, the value of a decimal literal with one digit after the
    point: [tenths 105] is 10.5. *)
Definition tenths (k : Z) : Qc := Q2Qc (k # 10).

Definition Qc_ltb (a b : Qc) : bool := negb (Qle_bool b a).

(** The least magnitude that no longer rounds to a finite binary64 value:
    from there on [float(n)] and [n / d] raise [OverflowError], and a float
    addition gives an infinity. *)
Definition float_overflow : Z := 2 ^ 1024 - 2 ^ 970.

Definition Qc_overflows (q : Qc) : bool :=
  Qle_bool (inject_Z float_overflow) (Qabs q).

(** [float(n)] for an int [n]. *)
Definition float_of_int (n : Z) : result pyfloat :=
  if Z.abs n <? float_overflow then Ok (Fin (Q2Qc (inject_Z n)))
  else Raise OverflowError.

(** [n / d] for ints [n] and [d > 0]: true division. *)
Definition int_true_div (n : Z) (d : positive) : result pyfloat :=
  if Qc_overflows (Q2Qc (n # d)) then Raise OverflowError
  else Ok (Fin (Q2Qc (n # d))).

(** IEEE result of an exact finite value. *)
Definition float_of_exact (q : Qc) : pyfloat :=
  if Qc_overflows q then (if Qc_ltb q 0%Qc then NInf else PInf) else Fin q.

Definition float_neg (a : pyfloat) : pyfloat :=
  match a with
  | NaN => NaN
  | PInf => NInf
  | NInf => PInf
  | Fin q => Fin (- q)%Qc
  end.

Definition float_add (a b : pyfloat) : pyfloat :=
  match a, b with
  | NaN, _ | _, NaN => NaN
  | PInf, NInf | NInf, PInf => NaN
  | PInf, _ | _, PInf => PInf
  | NInf, _ | _, NInf => NInf
  | Fin x, Fin y => float_of_exact (x + y)%Qc
  end.

Definition float_sub (a b : pyfloat) : pyfloat := float_add a (float_neg b).

(** [n + f] for an int [n] and a float [f]: the int is converted first. *)
Definition int_add_float (n : Z) (f : pyfloat) : result pyfloat :=
  let! x := float_of_int n in Ok (float_add x f).

(** [a < b] on floats; every comparison with nan is false. *)
Definition float_ltb (a b : pyfloat) : bool :=
  match a, b with
  | NaN, _ | _, NaN => false
  | _, NInf => false
  | NInf, _ => true
  | PInf, _ => false
  | Fin _, PInf => true
  | Fin x, Fin y => Qc_ltb x y
  end.

(** Nearest integer to [n / d], ties to the even one. *)
Definition round_half_even (n : Z) (d : positive) : Z :=
  let f := n / Z.pos d in
  let r := n mod Z.pos d in
  if 2 * r <? Z.pos d then f
  else if Z.pos d <? 2 * r then f + 1
  else if Z.even f then f else f + 1.

Definition round1_Qc (q : Qc) : Qc :=
  tenths (round_half_even (10 * Qnum q) (Qden q)).

(** [round(x, 1)]: nan and the infinities are returned as they are. *)
Definition py_round1 (x : pyfloat) : pyfloat :=
  match x with
  | Fin q => Fin (round1_Qc q)
  | _ => x
  end.

(** The builtin [min(a, b)]: [a] unless [b < a]. *)
Definition py_min (a b : pyfloat) : pyfloat :=
  if float_ltb b a then b else a.

(** The literal [99.0]. *)
Definition f99 : pyfloat := Fin (tenths 990).

(** ** Cell values *)

Record date : Type := Date { year : Z; month : Z; day : Z }.

Inductive pyval : Type :=
  | VNone
  | VNaT
  | VFloat (f : pyfloat)
  | VInt (n : Z)
  | VStr (s : string)
  | VDate (d : date).

#[global] Instance Qc_eq_dec : EqDecision Qc.
Proof.
  intros a b. destruct (Qeq_bool a b) eqn:E.
  - left. apply Qc_is_canon, Qeq_bool_eq, E.
  - right. intros ->. rewrite (proj2 (Qeq_bool_iff _ _)) in E by reflexivity.
    discriminate.
Defined.

#[global] Instance pyfloat_eq_dec : EqDecision pyfloat.
Proof. solve_decision. Defined.

#[global] Instance date_eq_dec : EqDecision date.
Proof. solve_decision. Defined.

#[global] Instance pyval_eq_dec : EqDecision pyval.
Proof. solve_decision. Defined.

(** [pd.isna(v)] *)
Definition isna (v : pyval) : bool :=
  match v with
  | VNone | VNaT | VFloat NaN => true
  | _ => false
  end.

(** ** DataFrames

    A DataFrame is its list of column labels and its rows in order; a row
    maps a column label to the value of its cell. *)

Record DataFrame : Type := {
  df_columns : list string;
  df_rows : list (gmap string pyval)
}.

#[global] Instance DataFrame_eq_dec : EqDecision DataFrame.
Proof. solve_decision. Defined.

Definition cell (r : gmap string pyval) (c : string) : pyval :=
  default VNone (r !! c).

(** [df[c]] as an expression. *)
Definition get_column (df : DataFrame) (c : string) : result (list pyval) :=
  if decide (c ∈ df_columns df)
  then Ok (map (fun r => cell r c) (df_rows df))
  else Raise KeyError.

(** [df[c] = vals]: the column is overwritten, or added as the last one. *)
Definition set_column (df : DataFrame) (c : string) (vals : list pyval)
  : DataFrame :=
  {| df_columns :=
       if decide (c ∈ df_columns df) then df_columns df
       else df_columns df ++ [c];
     df_rows := zip_with (fun r v => <[c := v]> r) (df_rows df) vals |}.

(** [df.drop(columns=[c], inplace=True)] *)
Definition drop_column (df : DataFrame) (c : string) : result DataFrame :=
  if decide (c ∈ df_columns df)
  then Ok {| df_columns := List.filter (fun c' => negb (String.eqb c c'))
                             (df_columns df);
             df_rows := map (delete c) (df_rows df) |}
  else Raise KeyError.

Definition is_float_val (v : pyval) : bool :=
  match v with VFloat _ => true | _ => false end.

Definition is_none_val (v : pyval) : bool :=
  match v with VNone => true | _ => false end.

Definition is_str_val (v : pyval) : bool :=
  match v with VStr _ => true | _ => false end.

(** The type inference that pandas runs on the values returned under
    [Series.apply] ([lib.maybe_convert_objects]), for results that are
    floats or [None]: when at least one result is a float the column
    becomes a float column and every [None] is stored as nan; a column of
    [None] only stays as it is. *)
Definition maybe_convert_objects (l : list pyval) : list pyval :=
  if existsb is_float_val l
     && forallb (fun v => is_float_val v || is_none_val v) l
  then map (fun v => if is_none_val v then VFloat NaN else v) l
  else l.

(** [col.apply(f)] *)
Definition series_apply (f : pyval -> result pyval) (col : list pyval)
  : result (list pyval) :=
  let! out := map_result f col in
  Ok (maybe_convert_objects out).

(** ** Strings and the two regular expressions *)

Definition is_digit (c : ascii) : bool :=
  let n := nat_of_ascii c in ((48 <=? n) && (n <=? 57))%nat.

(** The longest run of digits at the start of [s], and what follows it. *)
Fixpoint span_digits (s : string) : string * string :=
  match s with
  | EmptyString => (EmptyString, EmptyString)
  | String c s' =>
      if is_digit c then
        let '(d, r) := span_digits s' in (String c d, r)
      else (EmptyString, s)
  end.

Fixpoint strip_prefix (p s : string) : option string :=
  match p, s with
  | EmptyString, _ => Some s
  | String a p', String b s' =>
      if Ascii.eqb a b then strip_prefix p' s' else None
  | String _ _, EmptyString => None
  end.

(** The patterns of the source are sequences of two kinds of items: the
    group [(\d+)] and literal text. *)
Inductive re_item : Type :=
  | RDigits
  | RLit (l : string).

Definition regex : Type := list re_item.

(** All the ways [(\d+)] can match at the start of [d +:+ r], [d] being a
    run of digits: every non-empty prefix of [d], shortest first, each with
    the text left after it. *)
Fixpoint digit_splits (d r : string) : list (string * string) :=
  match d with
  | EmptyString => []
  | String c d' =>
      (String c EmptyString, d' +:+ r)
      :: map (fun '(g, rest) => (String c g, rest)) (digit_splits d' r)
  end.

Fixpoint first_some {A B : Type} (f : A -> option B) (l : list A) : option B :=
  match l with
  | [] => None
  | a :: l' => match f a with Some b => Some b | None => first_some f l' end
  end.

(** [re.match(p, s)]: the match is anchored at the start of [s] only, and
    [\d+] is greedy: the longest run is tried first, then the engine backs
    off one digit at a time.  The result is the list of groups. *)
Fixpoint re_match (p : regex) (s : string) : option (list string) :=
  match p with
  | [] => Some []
  | RLit l :: p' =>
      match strip_prefix l s with
      | Some r => re_match p' r
      | None => None
      end
  | RDigits :: p' =>
      let '(d, r) := span_digits s in
      first_some
        (fun '(g, rest) =>
           match re_match p' rest with
           | Some gs => Some (g :: gs)
           | None => None
           end)
        (rev (digit_splits d r))
  end.

(** [r"(\d+) years (\d+) months"] *)
Definition re_full : regex :=
  [RDigits; RLit " years "; RDigits; RLit " months"].

(** [r"(\d+) years"] *)
Definition re_years : regex := [RDigits; RLit " years"].

Definition digit_val (c : ascii) : Z := Z.of_nat (nat_of_ascii c) - 48.

Fixpoint digits_to_Z_acc (acc : Z) (s : string) : Z :=
  match s with
  | EmptyString => acc
  | String c s' => digits_to_Z_acc (10 * acc + digit_val c) s'
  end.

Definition digits_to_Z (s : string) : Z := digits_to_Z_acc 0 s.

(** Predicates on texts and patterns. *)

Fixpoint all_digits (s : string) : bool :=
  match s with
  | EmptyString => true
  | String c s' => is_digit c && all_digits s'
  end.

(** [s] does not go on with a digit. *)
Definition digits_end (s : string) : Prop :=
  match s with
  | EmptyString => True
  | String c _ => is_digit c = false
  end.


Section Lease.

(** CPython's limit on the length of a decimal literal given to [int()]
    ([sys.get_int_max_str_digits()], 4300 by default since 3.11).  The
    interpreter accepts a limit of at least 640, or 0 for no limit, which
    is also the behaviour of older interpreters. *)
Variable int_max_str_digits : nat.

(** [int(s)] for a non-empty string of digits. *)
Definition py_int (s : string) : result Z :=
  if ((640 <=? int_max_str_digits)
      && (int_max_str_digits <? String.length s))%nat
  then Raise ValueError
  else Ok (digits_to_Z s).

(** [min(round(x, 1), 99.0)] *)
Definition cap99 (x : pyfloat) : pyfloat := py_min (py_round1 x) f99.

(** The function applied to every value of the column.  A float or an int
    goes through the numeric branch; anything else is handed to [re.match],
    which raises [TypeError] on a value that is not a str. *)
Definition convert_lease (lease : pyval) : result pyval :=
  match lease with
  | VFloat f => Ok (VFloat (cap99 f))
  | VInt n =>
      let! f := float_of_int n in
      Ok (VFloat (cap99 f))
  | VStr s =>
      match re_match re_full s with
      | Some [g1; g2] =>
          let! years := py_int g1 in
          let! months := py_int g2 in
          let! frac := int_true_div months 12 in
          let! remaining_lease := int_add_float years frac in
          Ok (VFloat (cap99 remaining_lease))
      | _ =>
          match re_match re_years s with
          | Some [g1] =>
              let! years := py_int g1 in
              let! f := float_of_int years in
              Ok (VFloat (cap99 f))
          | _ => Ok VNone
          end
      end
  | VNone | VNaT | VDate _ => Raise TypeError
  end.

Definition standardize_remaining_lease (df : DataFrame) : result DataFrame :=
  let! col := get_column df "remaining_lease" in
  let! out := series_apply convert_lease col in
  Ok (set_column df "remaining_lease" out).

End Lease.

(** ** Text normalizer *)

(** [str.isspace] on ASCII: tab, line feed, vertical tab, form feed,
    carriage return, the four separators 0x1c-0x1f and the space. *)
Definition is_space (c : ascii) : bool :=
  let n := nat_of_ascii c in
  (((9 <=? n) && (n <=? 13)) || ((28 <=? n) && (n <=? 32)))%nat.

Fixpoint py_lstrip (s : string) : string :=
  match s with
  | EmptyString => EmptyString
  | String c s' => if is_space c then py_lstrip s' else s
  end.

Fixpoint py_rstrip (s : string) : string :=
  match s with
  | EmptyString => EmptyString
  | String c s' =>
      match py_rstrip s' with
      | EmptyString => if is_space c then EmptyString else String c EmptyString
      | t => String c t
      end
  end.

(** [s.strip()] *)
Definition py_strip (s : string) : string := py_rstrip (py_lstrip s).

Definition is_lower (c : ascii) : bool :=
  let n := nat_of_ascii c in ((97 <=? n) && (n <=? 122))%nat.

Definition upper_char (c : ascii) : ascii :=
  if is_lower c then ascii_of_nat (nat_of_ascii c - 32) else c.

(** [s.upper()] *)
Fixpoint py_upper (s : string) : string :=
  match s with
  | EmptyString => EmptyString
  | String c s' => String (upper_char c) (py_upper s')
  end.

(** The [.str] accessor of an object column is refused with
    [AttributeError] unless the column holds a str or holds missing values
    only.  (A column of a numeric dtype is refused whatever it holds; the
    columns of this model are object columns.) *)
Definition str_accessor_ok (col : list pyval) : bool :=
  forallb isna col || existsb is_str_val col.

(** What a [.str] method does with one cell: a str is mapped, a missing
    value stays as it is, and any other value is replaced by nan. *)
Definition str_cell (f : string -> string) (v : pyval) : pyval :=
  match v with
  | VStr s => VStr (f s)
  | _ => if isna v then v else VFloat NaN
  end.

Definition str_method (f : string -> string) (col : list pyval)
  : result (list pyval) :=
  if str_accessor_ok col then Ok (map (str_cell f) col)
  else Raise AttributeError.

Definition clean_flat_model (df : DataFrame) : result DataFrame :=
  let! col := get_column df "flat_model" in
  let! stripped := str_method py_strip col in
  let! upper := str_method py_upper stripped in
  Ok (set_column df "flat_model" upper).

(** ** Lease imputer *)

(** An int stored in a float column. *)
Definition float_of_int64 (n : Z) : pyfloat := Fin (Q2Qc (inject_Z n)).

(** A column of ints in which a value is missing is a float column. *)
Definition numeric_column (l : list pyval) : list pyval :=
  if existsb is_float_val l
  then map (fun v => match v with VInt n => VFloat (float_of_int64 n) | _ => v end) l
  else l.

Definition is_datetime_val (v : pyval) : bool :=
  match v with VDate _ | VNaT => true | _ => false end.

(** [col.dt.year] and [col.dt.month]: the accessor is refused unless the
    column is a datetime column; [NaT] gives nan. *)
Definition dt_field (f : date -> Z) (col : list pyval) : result (list pyval) :=
  if forallb is_datetime_val col
  then Ok (numeric_column
             (map (fun v => match v with
                            | VDate d => VInt (f d)
                            | _ => VFloat NaN
                            end) col))
  else Raise AttributeError.

(** [a - b] on numbers. *)
Definition py_sub (a b : pyval) : result pyval :=
  match a, b with
  | VInt x, VInt y => Ok (VInt (x - y))
  | VInt x, VFloat g => let! f := float_of_int x in Ok (VFloat (float_sub f g))
  | VFloat f, VInt y => let! g := float_of_int y in Ok (VFloat (float_sub f g))
  | VFloat f, VFloat g => Ok (VFloat (float_sub f g))
  | _, _ => Raise TypeError
  end.

Definition float_div_pos (a : pyfloat) (d : positive) : pyfloat :=
  match a with
  | Fin q => Fin (q * Q2Qc (1 # d))%Qc
  | _ => a
  end.

(** [a / d] for a positive int literal [d]. *)
Definition py_truediv (a : pyval) (d : positive) : result pyval :=
  match a with
  | VInt n => let! f := int_true_div n d in Ok (VFloat f)
  | VFloat f => Ok (VFloat (float_div_pos f d))
  | _ => Raise TypeError
  end.

(** Element-wise [a - b] of two columns. *)
Definition series_sub (a b : list pyval) : result (list pyval) :=
  map_result (fun '(x, y) => py_sub x y) (zip a b).

(** One cell of [col.round(1)]; like [round], it rounds a tie to the even
    digit. *)
Definition round_cell (v : pyval) : result pyval :=
  match v with
  | VFloat f => Ok (VFloat (py_round1 f))
  | VInt n => Ok (VInt n)
  | _ => Raise TypeError
  end.

Definition impute_remaining_lease (df : DataFrame) : result DataFrame :=
  let! months := get_column df "month" in
  let! current_year := dt_field year months in
  let df := set_column df "current_year" current_year in
  let! months := get_column df "month" in
  let! current_month := dt_field month months in
  let df := set_column df "current_month" current_month in
  let! cy := get_column df "current_year" in
  let! lcd := get_column df "lease_commence_date" in
  let! years_elapsed := series_sub cy lcd in
  let! cm := get_column df "current_month" in
  let! months_fraction := map_result (fun v => py_truediv v 12) cm in
  let! a := map_result (py_sub (VInt 99)) years_elapsed in
  let! b := series_sub a months_fraction in
  let! r := map_result round_cell b in
  let df := set_column df "remaining_lease" r in
  let! df := drop_column df "current_year" in
  drop_column df "current_month".

(** ** Deduplicator and reporter *)

(** The value under which pandas compares a cell with another when it
    looks for duplicates: every missing value is the same, and an int is
    the float of the same value. *)
Definition cell_key (v : pyval) : pyval :=
  match v with
  | VNone | VNaT | VFloat NaN => VNone
  | VInt n => VFloat (float_of_int64 n)
  | _ => v
  end.

Definition row_key (cols : list string) (r : gmap string pyval) : list pyval :=
  map (fun c => cell_key (cell r c)) cols.

(** A boolean selection [l[mask]]. *)
Fixpoint select {A : Type} (mask : list bool) (l : list A) : list A :=
  match mask, l with
  | b :: mask', a :: l' => if b then a :: select mask' l' else select mask' l'
  | _, _ => []
  end.

(** [duplicated()], given the keys of the rows already seen: a row is
    marked when an earlier row has its key. *)
Fixpoint duplicated_from (seen keys : list (list pyval)) : list bool :=
  match keys with
  | [] => []
  | k :: keys' => bool_decide (k ∈ seen) :: duplicated_from (k :: seen) keys'
  end.

Definition duplicated (df : DataFrame) : list bool :=
  duplicated_from [] (map (row_key (df_columns df)) (df_rows df)).

Definition drop_duplicates (df : DataFrame) : DataFrame :=
  {| df_columns := df_columns df;
     df_rows := select (map negb (duplicated df)) (df_rows df) |}.

Definition count_true (l : list bool) : nat := length (List.filter id l).

(** [df.isna().sum()]: for every column, how many cells are missing. *)
Definition isna_sum (df : DataFrame) : list (string * nat) :=
  map (fun c => (c, count_true (map (fun r => isna (cell r c)) (df_rows df))))
    (df_columns df).

(** What [print] is given: a text, or the table of counts. *)
Inductive printed : Type :=
  | PStr (s : string)
  | PCounts (l : list (string * nat)).

#[global] Instance printed_eq_dec : EqDecision printed.
Proof. solve_decision. Defined.

(** The function prints and returns: the result is the list of what was
    printed, in order, and the returned DataFrame. *)
Definition clean_dataset (df : DataFrame) (dataset_name : string)
  : list printed * DataFrame :=
  let out1 := PStr ("Cleaning dataset: " +:+ dataset_name) in
  let duplicates_count := count_true (duplicated df) in
  let out2 := PStr (dataset_name +:+ ": Number of duplicates: "
                    +:+ pretty duplicates_count) in
  let df_cleaned := drop_duplicates df in
  let missing_values := isna_sum df_cleaned in
  let out3 := PStr (dataset_name +:+ ": Missing values per column:") in
  let out4 := PCounts missing_values in
  ([out1; out2; out3; out4], df_cleaned).

(** ** Date normalizer *)

(** The texts that pandas reads as a missing date. *)
Definition nat_strings : list string :=
  ["NaT"; "nat"; "NAT"; "nan"; "NaN"; "NAN"].

(** The canonical form [YYYY-MM]: four digits, a dash and two digits. *)
Definition parse_YYYY_MM (s : string) : option (Z * Z) :=
  match s with
  | String y1 (String y2 (String y3 (String y4 (String "-"
      (String m1 (String m2 EmptyString)))))) =>
      if is_digit y1 && is_digit y2 && is_digit y3 && is_digit y4
         && is_digit m1 && is_digit m2
      then Some (digits_to_Z (String y1 (String y2 (String y3 (String y4 EmptyString)))),
                 digits_to_Z (String m1 (String m2 EmptyString)))
      else None
  | _ => None
  end.

(** The years that a nanosecond timestamp holds in full. *)
Definition timestamp_year (y : Z) : bool := (1678 <=? y) && (y <=? 2261).

Section DateNormalizer.

(** What [format="%Y-%m"] does with a text that is not a canonical
    [YYYY-MM] of a month 01-12 in a year the timestamp type holds: the
    details (one-digit months, surrounding blanks, years out of bounds)
    vary with the version of pandas and are left open. *)
Variable strptime_other : string -> option date.

(** A canonical text is the first day of its month. *)
Definition strptime_Ym (s : string) : option date :=
  match parse_YYYY_MM s with
  | Some (y, m) =>
      if timestamp_year y && (1 <=? m) && (m <=? 12)
      then Some (Date y m 1)
      else strptime_other s
  | None => strptime_other s
  end.

(** One cell under [pd.to_datetime(col, format="%Y-%m")], [errors] left at
    its default ["raise"].  A missing value, the empty text and the texts
    of [nat_strings] are [NaT]; a number is turned into text first, and the
    text of a number is not a date of this format. *)
Definition to_datetime_cell (v : pyval) : result pyval :=
  match v with
  | VStr s =>
      if bool_decide (s = EmptyString) || bool_decide (s ∈ nat_strings)
      then Ok VNaT
      else match strptime_Ym s with
           | Some d => Ok (VDate d)
           | None => Raise ValueError
           end
  | VDate d => Ok (VDate d)
  | VNone | VNaT | VFloat NaN => Ok VNaT
  | VInt _ | VFloat _ => Raise ValueError
  end.

Definition convert_month_to_datetime (df : DataFrame) (column_name : string)
  : result DataFrame :=
  let! col := get_column df column_name in
  let! out := map_result to_datetime_cell col in
  Ok (set_column df column_name out).

End DateNormalizer.

(** ** Column splitter (range) *)

(** [s.split(sep)] for a non-empty [sep]: [skip] counts the characters of
    a separator just found that are still to be passed over, [cur] is the
    piece being read. *)
Fixpoint split_go (sep : string) (skip : nat) (cur s : string) : list string :=
  match s with
  | EmptyString => [cur]
  | String c s' =>
      match skip with
      | S k => split_go sep k cur s'
      | O =>
          match strip_prefix sep s with
          | Some _ => cur :: split_go sep (String.length sep - 1) EmptyString s'
          | None => split_go sep O (cur +:+ String c EmptyString) s'
          end
      end
  end.

Definition py_split (sep s : string) : list string :=
  split_go sep O EmptyString s.

(** [col.str.split(sep, expand=True)], one list of cells per row, before
    the rows are brought to one length. *)
Definition str_split (sep : string) (col : list pyval)
  : result (list (list pyval)) :=
  if str_accessor_ok col
  then Ok (map (fun v =>
                  match v with
                  | VStr s => map VStr (py_split sep s)
                  | _ => if isna v then [v] else [VFloat NaN]
                  end) col)
  else Raise AttributeError.

(** The number of columns of the expanded frame: the length of the longest
    row, none when there is no row. *)
Definition expand_width (rows : list (list pyval)) : nat :=
  foldr (fun r n => Nat.max (length r) n) O rows.

(** A row of the expanded frame: a nan row is nan in every column, a
    shorter row is filled with [None]. *)
Definition expand_row (n : nat) (r : list pyval) : list pyval :=
  match r with
  | [VFloat NaN] => replicate n (VFloat NaN)
  | _ => r ++ replicate (n - length r) VNone
  end.

Definition frame_column (j : nat) (rows : list (list pyval)) : list pyval :=
  map (fun r => nth j r VNone) rows.

Section ColumnSplitter.

(** What [pd.to_numeric] reads in a text that is not a plain run of at
    most 18 digits (signs, blanks, decimal points, exponents, ...). *)
Variable to_numeric_other : string -> option pyval.

Definition parse_numeric (s : string) : option pyval :=
  if all_digits s && (1 <=? String.length s)%nat && (String.length s <=? 18)%nat
  then Some (VInt (digits_to_Z s))
  else to_numeric_other s.

(** One cell under [pd.to_numeric(col, errors="coerce")]. *)
Definition to_numeric_cell (v : pyval) : pyval :=
  match v with
  | VStr s => default (VFloat NaN) (parse_numeric s)
  | VInt _ | VFloat _ => v
  | _ => VFloat NaN
  end.

Definition to_numeric (col : list pyval) : list pyval :=
  numeric_column (map to_numeric_cell col).

Definition split_storey_range (df : DataFrame) : result DataFrame :=
  let! col := get_column df "storey_range" in
  let! parts := str_split " TO " col in
  let width := expand_width parts in
  let frame := map (expand_row width) parts in
  if negb (width =? 2)%nat then Raise ValueError
  else
    let df := set_column df "lower_storey" (frame_column 0 frame) in
    let df := set_column df "upper_storey" (frame_column 1 frame) in
    let! lower := get_column df "lower_storey" in
    let df := set_column df "lower_storey" (to_numeric lower) in
    let! upper := get_column df "upper_storey" in
    let df := set_column df "upper_storey" (to_numeric upper) in
    Ok df.

End ColumnSplitter.

(** ** Grouped aggregator *)

Definition float_max (a b : pyfloat) : pyfloat :=
  if float_ltb a b then b else a.

(** The maximum of the values that are not nan; nan when there is none. *)
Definition nanmax (l : list pyfloat) : pyfloat :=
  foldr (fun v acc =>
           match v, acc with
           | NaN, _ => acc
           | _, NaN => v
           | _, _ => float_max v acc
           end) NaN l.

(** The key of a row under [groupby(columns)]: none when one of the key cells is
    missing ([dropna] is left at its default, so the row is in no group). *)
Definition group_key (columns : list string) (r : gmap string pyval)
  : option (list pyval) :=
  let cells := map (cell r) columns in
  if existsb isna cells then None else Some (map cell_key cells).

(** The value of a numeric cell as a float. *)
Definition to_float_cell (v : pyval) : result pyfloat :=
  match v with
  | VInt n => Ok (float_of_int64 n)
  | VFloat f => Ok f
  | VNone => Ok NaN
  | _ => Raise TypeError
  end.

Definition group_values (k : list pyval)
  (keys : list (option (list pyval))) (vals : list pyfloat) : list pyfloat :=
  map snd (List.filter (fun kv => bool_decide (fst kv = Some k)) (zip keys vals)).

(** [groupby(columns)[col].transform("max")] on the keys and values of the
    rows: every row of a group gets the maximum of the group, and a row in
    no group gets nan. *)
Definition transform_max (keys : list (option (list pyval)))
  (vals : list pyfloat) : list pyfloat :=
  map (fun k =>
         match k with
         | Some k' => nanmax (group_values k' keys vals)
         | None => NaN
         end) keys.

Definition storey_by : list string := ["town"; "block"; "street_name"].

Definition add_max_storey (df : DataFrame) : result DataFrame :=
  let! _ := map_result (get_column df) storey_by in
  let keys := map (group_key storey_by) (df_rows df) in
  let! upper := get_column df "upper_storey" in
  let! vals := map_result to_float_cell upper in
  Ok (set_column df "max_storey" (map VFloat (transform_max keys vals))).

(** ** Row-wise deriver *)

(** The float that a number is compared as. *)
Definition number_value (v : pyval) : result pyfloat :=
  match v with
  | VInt n => Ok (float_of_int64 n)
  | VFloat f => Ok f
  | _ => Raise TypeError
  end.

(** The builtin [max(a, b)]: [a] unless [b > a]. *)
Definition py_max (a b : pyval) : result pyval :=
  let! x := number_value a in
  let! y := number_value b in
  Ok (if float_ltb x y then b else a).

(** [row[c]] *)
Definition row_get (row : gmap string pyval) (c : string) : result pyval :=
  match row !! c with
  | Some v => Ok v
  | None => Raise KeyError
  end.

Definition calculate_age_of_flat (row : gmap string pyval) : result pyval :=
  let! remaining_lease := row_get row "remaining_lease" in
  let! age := py_sub (VInt 99) remaining_lease in
  py_max age (VInt 0).




(** ** Trimmed and upper-cased, in the words of the specification *)

Fixpoint all_space (s : string) : bool :=
  match s with
  | EmptyString => true
  | String c s' => is_space c && all_space s'
  end.

Definition first_char (s : string) : option ascii :=
  match s with
  | EmptyString => None
  | String c _ => Some c
  end.

Fixpoint last_char (s : string) : option ascii :=
  match s with
  | EmptyString => None
  | String c EmptyString => Some c
  | String _ s' => last_char s'
  end.

Definition not_space (o : option ascii) : Prop :=
  match o with
  | Some c => is_space c = false
  | None => True
  end.

(** [t] is [s] without its leading and trailing white space. *)
Definition is_trim_of (s t : string) : Prop :=
  exists l r,
    all_space l = true /\ all_space r = true /\ s = l +:+ t +:+ r
    /\ not_space (first_char t) /\ not_space (last_char t).


(** ** The imputed lease, in the words of the specification *)

(** round(99 - (current_year - commence_year) - current_month / 12, 1) *)
Definition lease_formula (current_year current_month commence_year : Z) : Qc :=
  round1_Qc (Q2Qc (inject_Z (99 - (current_year - commence_year)))
             - Q2Qc (current_month # 12))%Qc.

(** A row of a table whose 'month' column is a date column and whose
    'lease_commence_date' column is an integer column: the date is a
    timestamp, and the year is in the range where 64-bit arithmetic on it
    does not wrap around. *)
Definition imputer_row (r : gmap string pyval) : Prop :=
  exists y m d c,
    cell r "month" = VDate (Date y m d)
    /\ 1677 <= y <= 2262 /\ 1 <= m <= 12
    /\ cell r "lease_commence_date" = VInt c
    /\ Z.abs c <= 2 ^ 62.

(** ** A well-formed storey range *)

(** A run of 1 to 18 digits. *)
Definition whole_number (s : string) : Prop :=
  all_digits s = true /\ (1 <= String.length s <= 18)%nat.

(** A row whose 'storey_range' is "L TO U", [L] and [U] whole numbers. *)
Definition storey_row (r : gmap string pyval) : Prop :=
  exists l u,
    cell r "storey_range" = VStr (l +:+ " TO " +:+ u)
    /\ whole_number l /\ whole_number u.

(** ** The maximum of a group, in the words of the specification *)

(** The 'upper_storey' of a row as a float, nan when it is missing. *)
Definition upper_value (r : gmap string pyval) : pyfloat :=
  match to_float_cell (cell r "upper_storey") with
  | Ok f => f
  | Raise _ => NaN
  end.

(** [m] is the maximum of 'upper_storey' over the rows whose key is [k],
    the rows with a missing 'upper_storey' left out; it is missing (nan)
    when every row of the group has a missing 'upper_storey'. *)
Definition group_max_spec (rows : list (gmap string pyval)) (k : list pyval)
  (m : pyfloat) : Prop :=
  (m <> NaN ->
     (exists r', r' ∈ rows /\ group_key storey_by r' = Some k
                 /\ upper_value r' = m)
     /\ (forall r', r' ∈ rows -> group_key storey_by r' = Some k ->
           upper_value r' <> NaN -> float_ltb m (upper_value r') = false))
  /\ (m = NaN ->
       forall r', r' ∈ rows -> group_key storey_by r' = Some k ->
         upper_value r' = NaN).

(** A row of a table whose 'upper_storey' column is numeric. *)
Definition numeric_upper (r : gmap string pyval) : Prop :=
  exists f, to_float_cell (cell r "upper_storey") = Ok f.

(** ** A negative age *)

Definition is_negative (v : pyval) : bool :=
  match v with
  | VInt n => n <? 0
  | VFloat f => float_ltb f (float_of_int64 0)
  | _ => false
  end.

(** ** Concrete inputs *)

(** [DataFrame(rows)], the rows given as lists of pairs. *)
Definition frame (cols : list string) (rows : list (list (string * pyval)))
  : DataFrame :=
  {| df_columns := cols; df_rows := map list_to_map rows |}.

Fixpoint zeros (n : nat) : string :=
  match n with
  | O => EmptyString
  | S n' => String "0" (zeros n')
  end.

(** The text ["1000...0 years"] with 400 zeros. *)
Definition huge_years : string := "1" +:+ zeros 400 +:+ " years".

Definition garbage_frame : DataFrame :=
  frame ["remaining_lease"] [[("remaining_lease", VStr "garbage")]].

Definition none_frame : DataFrame :=
  frame ["remaining_lease"] [[("remaining_lease", VNone)]].

Definition mixed_lease_frame : DataFrame :=
  frame ["remaining_lease"]
    [[("remaining_lease", VStr "garbage")];
     [("remaining_lease", VStr "10 years 6 months")];
     [("remaining_lease", VInt 150)]].

Definition mixed_lease_out : DataFrame :=
  frame ["remaining_lease"]
    [[("remaining_lease", VFloat NaN)];
     [("remaining_lease", VFloat (Fin (tenths 105)))];
     [("remaining_lease", VFloat f99)]].

Definition flat_model_frame : DataFrame :=
  frame ["flat_model"]
    [[("flat_model", VStr "  abc ")];
     [("flat_model", VInt 5)];
     [("flat_model", VNone)]].

Definition imputer_frame : DataFrame :=
  frame ["month"; "lease_commence_date"]
    [[("month", VDate (Date 2020 3 1)); ("lease_commence_date", VInt 1990)];
     [("month", VDate (Date 2020 12 1)); ("lease_commence_date", VInt 1900)];
     [("month", VDate (Date 2020 6 1)); ("lease_commence_date", VInt 2030)]].

Definition duplicate_frame : DataFrame :=
  frame ["a"]
    [[("a", VInt 1)]; [("a", VInt 2)]; [("a", VInt 1)]; [("a", VNone)];
     [("a", VFloat NaN)]].

Definition month_frame : DataFrame :=
  frame ["month"] [[("month", VStr "2020-03")]; [("month", VStr "2019-12")]].

Definition bad_month_frame : DataFrame :=
  frame ["month"] [[("month", VStr "2020-03")]; [("month", VStr "March 2020")]].

Definition empty_month_frame : DataFrame :=
  frame ["month"] [[("month", VStr "2020-03")]; [("month", VStr "")]].

(** A version of pandas that accepts the canonical form only. *)
Definition strict_format : string -> option date := fun _ => None.

Definition bad_storey_frame : DataFrame :=
  frame ["storey_range"] [[("storey_range", VStr "bad")]].

Definition mixed_storey_frame : DataFrame :=
  frame ["storey_range"]
    [[("storey_range", VStr "04 TO 06")]; [("storey_range", VStr "bad")]].

Definition storey_frame : DataFrame :=
  frame ["storey_range"]
    [[("storey_range", VStr "04 TO 06")]; [("storey_range", VStr "10 TO 12")]].

Definition triple_storey_frame : DataFrame :=
  frame ["storey_range"]
    [[("storey_range", VStr "04 TO 06")];
     [("storey_range", VStr "01 TO 03 TO 05")]].

Definition building (town block street : string) (upper : pyval)
  : list (string * pyval) :=
  [("town", VStr town); ("block", VStr block); ("street_name", VStr street);
   ("upper_storey", upper)].

Definition storey_columns : list string :=
  ["town"; "block"; "street_name"; "upper_storey"].

(** The example of the specification, and a building of its own. *)
Definition aggregator_frame : DataFrame :=
  frame storey_columns
    [building "T1" "B1" "S1" (VFloat (float_of_int64 5));
     building "T1" "B1" "S1" (VFloat (float_of_int64 9));
     building "T1" "B1" "S1" (VFloat NaN);
     building "T2" "B1" "S1" (VFloat (float_of_int64 3));
     building "T3" "B1" "S1" (VFloat NaN)].

(** ** Definitions for the further properties *)

(** The year and the month of the 'month' cell of a row, and its
    commencement year. *)
Definition row_year (r : gmap string pyval) : Z :=
  match cell r "month" with VDate d => year d | _ => 0 end.

Definition row_month (r : gmap string pyval) : Z :=
  match cell r "month" with VDate d => month d | _ => 0 end.

Definition row_commence (r : gmap string pyval) : Z :=
  match cell r "lease_commence_date" with VInt c => c | _ => 0 end.

(** A row whose 'month' is a canonical [YYYY-MM] text of a month 01-12 in a
    year that a timestamp holds, and whose commencement year is an int. *)
Definition month_text_row (r : gmap string pyval) : Prop :=
  exists s y m c,
    cell r "month" = VStr s /\ parse_YYYY_MM s = Some (y, m)
    /\ timestamp_year y = true /\ 1 <= m <= 12
    /\ cell r "lease_commence_date" = VInt c /\ Z.abs c <= 2 ^ 62.

Definition text_month_frame : DataFrame :=
  frame ["month"; "lease_commence_date"; "current_year"]
    [[("month", VStr "2020-03"); ("lease_commence_date", VInt 1990);
      ("current_year", VStr "kept?")];
     [("month", VStr "2020-12"); ("lease_commence_date", VInt 1900);
      ("current_year", VStr "kept?")]].

Definition dated_frame : DataFrame :=
  frame ["month"; "lease_commence_date"; "current_year"]
    [[("month", VDate (Date 2020 3 1)); ("lease_commence_date", VInt 1990);
      ("current_year", VStr "kept?")];
     [("month", VDate (Date 2020 12 1)); ("lease_commence_date", VInt 1900);
      ("current_year", VStr "kept?")]].

(** The maximum of the group of key [k] in [rows], and the cell that the
    aggregator writes in a row. *)
Definition group_max (rows : list (gmap string pyval)) (k : list pyval)
  : pyfloat :=
  nanmax (map upper_value
            (List.filter (fun r => bool_decide (group_key storey_by r = Some k))
               rows)).

Definition max_storey_cell (rows : list (gmap string pyval))
  (r : gmap string pyval) : pyval :=
  VFloat (match group_key storey_by r with
          | Some k => group_max rows k
          | None => NaN
          end).

(** ** Column splitter (type) *)

(** The kinds of column types that [select_dtypes] tells apart here:
    [object], a numeric type (under [number]), [datetime64[ns]], and any
    other type (boolean, category, timedelta, ...). *)
Inductive dtype : Type :=
  | DObject
  | DNumber
  | DDatetime
  | DOther.

#[global] Instance dtype_eq_dec : EqDecision dtype.
Proof. solve_decision. Defined.

Section ColumnTypes.

(** The type that the DataFrame holds for each of its columns. *)
Variable dtypes : string -> dtype.

(** [df.select_dtypes(include=...)]: the columns of the listed types, in
    their order, with their cells. *)
Definition select_dtypes (include : list dtype) (df : DataFrame) : DataFrame :=
  let cols := List.filter (fun c => bool_decide (dtypes c ∈ include))
                (df_columns df) in
  {| df_columns := cols;
     df_rows := map (fun r : gmap string pyval =>
                       filter (fun kv => fst kv ∈ cols) r) (df_rows df) |}.

Definition split_categorical_numerical (df : DataFrame)
  : DataFrame * DataFrame :=
  let categorical_columns := select_dtypes [DObject] df in
  let numerical_columns := select_dtypes [DNumber; DDatetime] df in
  (categorical_columns, numerical_columns).

End ColumnTypes.

Definition typed_frame : DataFrame :=
  frame ["town"; "resale_price"; "month"; "sold"]
    [[("town", VStr "BEDOK"); ("resale_price", VInt 400000);
      ("month", VDate (Date 2020 3 1)); ("sold", VInt 1)]].

Definition typed_frame_dtypes (c : string) : dtype :=
  if String.eqb c "town" then DObject
  else if String.eqb c "resale_price" then DNumber
  else if String.eqb c "month" then DDatetime
  else DOther.
(** ** Properties of the string helpers *)










(** ** Rounding and capping *)

Ltac by_compute := apply (bool_decide_unpack _); vm_compute; exact I.

Lemma round_half_even_exact (k : Z) (d : positive) :
  round_half_even (k * Z.pos d) d = k.
Proof.
  unfold round_half_even.
  rewrite Z.div_mul, Z.mod_mul by lia.
  destruct (2 * 0 <? Z.pos d) eqn:E; [reflexivity|].
  apply Z.ltb_ge in E. lia.
Qed.

(** The rounded quotient is a nearest integer. *)
Lemma round_half_even_nearest (n : Z) (d : positive) :
  2 * Z.abs (n - round_half_even n d * Z.pos d) <= Z.pos d.
Proof.
  unfold round_half_even.
  pose proof (Z.div_mod n (Z.pos d) ltac:(lia)) as Hn.
  pose proof (Z.mod_pos_bound n (Z.pos d) ltac:(lia)) as Hr.
  set (f := n / Z.pos d) in *. set (r := n mod Z.pos d) in *.
  destruct (2 * r <? Z.pos d) eqn:E1; [apply Z.ltb_lt in E1; nia|].
  apply Z.ltb_ge in E1.
  destruct (Z.pos d <? 2 * r) eqn:E2; [apply Z.ltb_lt in E2; nia|].
  apply Z.ltb_ge in E2.
  destruct (Z.even f); nia.
Qed.

(** [round(x, 1)] is within 0.05 of [x]. *)
Lemma round1_Qc_nearest (q : Qc) :
  (Qabs (q - round1_Qc q) <= 1 # 20)%Q.
Proof.
  unfold round1_Qc.
  change (this (tenths (round_half_even (10 * Qnum q) (Qden q))))
    with (Qred (round_half_even (10 * Qnum q) (Qden q) # 10)).
  rewrite Qred_correct.
  pose proof (round_half_even_nearest (10 * Qnum q) (Qden q)) as H.
  set (k := round_half_even (10 * Qnum q) (Qden q)) in *.
  destruct q as [[a b] Hc]. simpl in *.
  unfold Qle, Qminus, Qplus, Qopp, Qabs. simpl.
  replace (a * 10 + - k * Z.pos b) with (10 * a - k * Z.pos b) by lia.
  rewrite Pos2Z.inj_mul. lia.
Qed.

(** A value with one decimal is left as it is by [round(x, 1)]. *)
Lemma round1_tenths (k : Z) : round1_Qc (tenths k) = tenths k.
Proof.
  unfold round1_Qc. f_equal.
  change (this (tenths k)) with (Qred (k # 10)).
  pose proof (Qred_correct (k # 10)) as H.
  destruct (Qred (k # 10)) as [a b]. unfold Qeq in H. simpl in *.
  replace (10 * a) with (k * Z.pos b) by lia.
  apply round_half_even_exact.
Qed.

Lemma round1_idem (q : Qc) : round1_Qc (round1_Qc q) = round1_Qc q.
Proof.
  change (round1_Qc q)
    with (tenths (round_half_even (10 * Qnum q) (Qden q))).
  apply round1_tenths.
Qed.

Lemma Qc_ltb_irrefl (q : Qc) : Qc_ltb q q = false.
Proof.
  unfold Qc_ltb. rewrite (proj2 (Qle_bool_iff q q)); [reflexivity|].
  apply Qle_refl.
Qed.

Lemma cap99_f99 : cap99 f99 = f99.
Proof.
  unfold cap99, f99, py_round1. rewrite round1_tenths.
  unfold py_min, float_ltb. now rewrite Qc_ltb_irrefl.
Qed.

Lemma cap99_Fin (q : Qc) :
  cap99 (Fin q)
  = if Qc_ltb (tenths 990) (round1_Qc q) then f99 else Fin (round1_Qc q).
Proof. reflexivity. Qed.

(** The numeric branch is a no-op on what the standardizer returns. *)
Lemma cap99_idem (x : pyfloat) : cap99 (cap99 x) = cap99 x.
Proof.
  destruct x as [| | |q].
  - reflexivity.
  - change (cap99 PInf) with f99. apply cap99_f99.
  - reflexivity.
  - rewrite (cap99_Fin q).
    destruct (Qc_ltb (tenths 990) (round1_Qc q)) eqn:E.
    + apply cap99_f99.
    + rewrite cap99_Fin, round1_idem. now rewrite E.
Qed.

(** The result is never above 99.0. *)
Lemma cap99_le (x : pyfloat) : float_ltb f99 (cap99 x) = false.
Proof.
  unfold cap99, py_min.
  destruct (float_ltb f99 (py_round1 x)) eqn:E; [|exact E].
  apply Qc_ltb_irrefl.
Qed.

(** ** Lease standardizer: one value *)

Lemma bind_ok_inv {A B : Type} (r : result A) (k : A -> result B) (b : B) :
  bind r k = Ok b -> exists a, r = Ok a /\ k a = Ok b.
Proof. destruct r as [a|e]; simpl; [eauto | discriminate]. Qed.

(** Whatever the standardizer returns for a value is a float or [None]. *)
Lemma convert_lease_ok_inv (lim : nat) (v r : pyval) :
  convert_lease lim v = Ok r -> r = VNone \/ exists f, r = VFloat (cap99 f).
Proof.
  unfold convert_lease. intros H.
  repeat match type of H with
    | Ok _ = Ok _ => injection H as <-
    | Raise _ = Ok _ => discriminate H
    | bind _ _ = Ok _ =>
        apply bind_ok_inv in H as (? & _ & H)
    | match ?x with _ => _ end = Ok _ => destruct x
    end; eauto.
Qed.

(** A value that is not [None] after one pass is left as it is by a second
    pass. *)
Lemma convert_lease_idem_float (lim : nat) (v : pyval) (f : pyfloat) :
  convert_lease lim v = Ok (VFloat f) ->
  convert_lease lim (VFloat f) = Ok (VFloat f).
Proof.
  intros H. apply convert_lease_ok_inv in H as [H|[g H]]; [discriminate|].
  injection H as ->. simpl. now rewrite cap99_idem.
Qed.

(** ** Columns of a DataFrame *)

Lemma map_result_length {A B : Type} (f : A -> result B) (l : list A)
  (l' : list B) :
  map_result f l = Ok l' -> length l' = length l.
Proof.
  revert l'. induction l as [|a l IH]; simpl; intros l' H.
  - now injection H as <-.
  - apply bind_ok_inv in H as (b & _ & H).
    apply bind_ok_inv in H as (bs & Hbs & H).
    injection H as <-. simpl. f_equal. eauto.
Qed.

Lemma map_result_lookup {A B : Type} (f : A -> result B) (l : list A)
  (l' : list B) (i : nat) (a : A) :
  map_result f l = Ok l' -> l !! i = Some a ->
  exists b, f a = Ok b /\ l' !! i = Some b.
Proof.
  revert l' i. induction l as [|x l IH]; simpl; intros l' i H Hi.
  - discriminate.
  - apply bind_ok_inv in H as (b & Hb & H).
    apply bind_ok_inv in H as (bs & Hbs & H).
    injection H as <-. destruct i as [|i]; simpl in *.
    + injection Hi as ->. eauto.
    + eauto.
Qed.

Lemma map_result_id {A : Type} (f : A -> result A) (l : list A) :
  Forall (fun a => f a = Ok a) l -> map_result f l = Ok l.
Proof.
  induction 1 as [|a l Ha _ IH]; simpl; [reflexivity|].
  now rewrite Ha, IH.
Qed.

Lemma get_column_ok_inv (df : DataFrame) (c : string) (col : list pyval) :
  get_column df c = Ok col ->
  c ∈ df_columns df /\ col = map (fun r => cell r c) (df_rows df).
Proof.
  unfold get_column. destruct (decide (c ∈ df_columns df)); [|discriminate].
  intros [= <-]. auto.
Qed.

Lemma cell_insert_eq (r : gmap string pyval) (c : string) (v : pyval) :
  cell (<[c := v]> r) c = v.
Proof. unfold cell. now rewrite lookup_insert_eq. Qed.

Lemma cell_insert_ne (r : gmap string pyval) (c c' : string) (v : pyval) :
  c <> c' -> cell (<[c := v]> r) c' = cell r c'.
Proof. intros H. unfold cell. now rewrite lookup_insert_ne. Qed.

(** Reading a column back after it was assigned gives the assigned
    values. *)
Lemma cells_zip_insert (c : string) (rows : list (gmap string pyval))
  (vals : list pyval) :
  length vals = length rows ->
  map (fun r => cell r c) (zip_with (fun r v => <[c := v]> r) rows vals) = vals.
Proof.
  revert vals. induction rows as [|r rows IH]; intros [|v vals]; simpl;
    try discriminate; intros H; [reflexivity|].
  rewrite cell_insert_eq. f_equal. apply IH. lia.
Qed.

Lemma zip_insert_twice (c : string) (rows : list (gmap string pyval))
  (vals : list pyval) :
  zip_with (fun r v => <[c := v]> r)
    (zip_with (fun r v => <[c := v]> r) rows vals) vals
  = zip_with (fun r v => <[c := v]> r) rows vals.
Proof.
  revert vals. induction rows as [|r rows IH]; intros [|v vals]; simpl;
    try reflexivity.
  rewrite insert_insert_eq. f_equal. apply IH.
Qed.

Lemma get_set_column (df : DataFrame) (c : string) (vals : list pyval) :
  length vals = length (df_rows df) ->
  get_column (set_column df c vals) c = Ok vals.
Proof.
  intros H. unfold get_column, set_column. simpl.
  destruct (decide (c ∈ df_columns df)) as [Hin|Hin].
  - rewrite decide_True by assumption. now rewrite cells_zip_insert.
  - rewrite decide_True by (apply elem_of_app; right; apply list_elem_of_singleton; reflexivity).
    now rewrite cells_zip_insert.
Qed.

Lemma set_column_twice (df : DataFrame) (c : string) (vals : list pyval) :
  c ∈ df_columns df ->
  set_column (set_column df c vals) c vals = set_column df c vals.
Proof.
  intros H. unfold set_column. simpl.
  destruct (decide (c ∈ df_columns df)) as [Hin|Hin]; [|contradiction].
  destruct (decide (c ∈ df_columns df)) as [Hin'|Hin']; [|contradiction].
  now rewrite zip_insert_twice.
Qed.

Lemma zip_with_map_r {A B C : Type} (f : A -> B -> C) (g : A -> B) (l : list A) :
  zip_with f l (map g l) = map (fun x => f x (g x)) l.
Proof. induction l as [|a l IH]; simpl; congruence. Qed.

Lemma zip_map_map {A B C : Type} (a : A -> B) (b : A -> C) (l : list A) :
  zip (map a l) (map b l) = map (fun x => (a x, b x)) l.
Proof. induction l as [|x l IH]; simpl; congruence. Qed.

Lemma map_result_map {A B C : Type} (f : B -> result C) (g : A -> B)
  (l : list A) :
  map_result f (map g l) = map_result (fun x => f (g x)) l.
Proof. induction l as [|x l IH]; simpl; [reflexivity|]. now rewrite IH. Qed.

Lemma map_result_ok_map {A B : Type} (f : A -> result B) (k : A -> B)
  (l : list A) :
  (forall x, x ∈ l -> f x = Ok (k x)) -> map_result f l = Ok (map k l).
Proof.
  induction l as [|x l IH]; intros H; simpl; [reflexivity|].
  rewrite H by left. rewrite IH; [reflexivity|].
  intros y Hy. apply H. now right.
Qed.

Lemma get_column_in (df : DataFrame) (c : string) :
  c ∈ df_columns df ->
  get_column df c = Ok (map (fun r => cell r c) (df_rows df)).
Proof. intros H. unfold get_column. now rewrite decide_True. Qed.

Lemma in_set_column (df : DataFrame) (c c' : string) (vals : list pyval) :
  c' = c \/ c' ∈ df_columns df -> c' ∈ df_columns (set_column df c vals).
Proof.
  intros H. simpl. destruct (decide (c ∈ df_columns df)) as [Hin|Hin].
  - destruct H as [->|H]; assumption.
  - apply elem_of_app. destruct H as [->|H]; [right|left; assumption].
    now apply list_elem_of_singleton.
Qed.

Lemma in_drop_column (df df1 : DataFrame) (c c' : string) :
  drop_column df c = Ok df1 -> c' <> c -> c' ∈ df_columns df ->
  c' ∈ df_columns df1.
Proof.
  unfold drop_column. destruct (decide (c ∈ df_columns df)); [|discriminate].
  intros [= <-] Hne Hin. simpl.
  apply list_elem_of_In, filter_In. split; [now apply list_elem_of_In|].
  apply negb_true_iff, String.eqb_neq. congruence.
Qed.

Lemma zip_with_map_map {A B C D : Type} (f : B -> C -> D) (a : A -> B)
  (b : A -> C) (l : list A) :
  zip_with f (map a l) (map b l) = map (fun x => f (a x) (b x)) l.
Proof. induction l as [|x l IH]; simpl; congruence. Qed.

Lemma set_column_rows_map (df : DataFrame) (c : string)
  (F : gmap string pyval -> gmap string pyval) (g : gmap string pyval -> pyval)
  (rows : list (gmap string pyval)) :
  df_rows df = map F rows ->
  df_rows (set_column df c (map g rows))
  = map (fun r => <[c := g r]> (F r)) rows.
Proof.
  intros H. simpl. rewrite H.
  apply (zip_with_map_map (fun r v => <[c := v]> r) F g).
Qed.

Lemma drop_column_in (df : DataFrame) (c : string) :
  c ∈ df_columns df ->
  exists df1, drop_column df c = Ok df1
              /\ df_rows df1 = map (delete c) (df_rows df).
Proof.
  intros H. unfold drop_column. rewrite decide_True by assumption.
  eexists. split; reflexivity.
Qed.

Lemma lookup_map {A B : Type} (f : A -> B) (l : list A) (i : nat) :
  map f l !! i = f <$> (l !! i).
Proof.
  revert i. induction l as [|a l IH]; intros [|i]; simpl; auto.
Qed.

(** ** Lease standardizer: the claims *)

(** The priority rules on values whose numbers a float can hold: a float
    is rounded and capped; an int is converted, rounded and capped; a text
    is read by the first pattern that matches its start; any other text
    gives [None]. *)
Lemma convert_lease_rules (lim : nat) :
  (forall f, convert_lease lim (VFloat f) = Ok (VFloat (cap99 f)))
  /\ (forall n, Z.abs n < float_overflow ->
        convert_lease lim (VInt n) = Ok (VFloat (cap99 (float_of_int64 n))))
  /\ (forall s g1 g2 years months frac,
        re_match re_full s = Some [g1; g2] ->
        py_int lim g1 = Ok years -> py_int lim g2 = Ok months ->
        Z.abs years < float_overflow ->
        int_true_div months 12 = Ok frac ->
        convert_lease lim (VStr s)
        = Ok (VFloat (cap99 (float_add (float_of_int64 years) frac))))
  /\ (forall s g1 years,
        re_match re_full s = None -> re_match re_years s = Some [g1] ->
        py_int lim g1 = Ok years -> Z.abs years < float_overflow ->
        convert_lease lim (VStr s) = Ok (VFloat (cap99 (float_of_int64 years))))
  /\ (forall s,
        re_match re_full s = None -> re_match re_years s = None ->
        convert_lease lim (VStr s) = Ok VNone).
Proof.
  repeat split.
  - intros n Hn. simpl. unfold float_of_int.
    now rewrite (proj2 (Z.ltb_lt _ _) Hn).
  - intros s g1 g2 years months frac Hm H1 H2 Hy Hf. simpl in *.
    rewrite Hm, H1. simpl. rewrite H2. simpl. rewrite Hf. simpl.
    unfold int_add_float, float_of_int.
    now rewrite (proj2 (Z.ltb_lt _ _) Hy).
  - intros s g1 years Hm Hy H1 Hr. simpl in *. rewrite Hm, Hy, H1. simpl.
    unfold float_of_int. now rewrite (proj2 (Z.ltb_lt _ _) Hr).
  - intros s Hm Hy. simpl in *. now rewrite Hm, Hy.
Qed.

(** The four examples of the specification. *)
Lemma convert_lease_examples (lim : nat) :
  convert_lease lim (VStr "10 years 6 months") = Ok (VFloat (Fin (tenths 105)))
  /\ convert_lease lim (VStr "99 years") = Ok (VFloat (Fin (tenths 990)))
  /\ convert_lease lim (VInt 150) = Ok (VFloat (Fin (tenths 990)))
  /\ convert_lease lim (VStr "garbage") = Ok VNone.
Proof.
  assert (H2 : forall s, (String.length s <= 2)%nat -> py_int lim s = Ok (digits_to_Z s)).
  { intros s Hs. unfold py_int.
    destruct (640 <=? lim)%nat eqn:E0; [|reflexivity].
    destruct (lim <? String.length s)%nat eqn:E1; [|reflexivity].
    apply Nat.leb_le in E0. apply Nat.ltb_lt in E1. lia. }
  split; [|split; [|split]].
  - change (convert_lease lim (VStr "10 years 6 months"))
      with (let! years := py_int lim "10" in
            let! months := py_int lim "6" in
            let! frac := int_true_div months 12 in
            let! remaining_lease := int_add_float years frac in
            Ok (VFloat (cap99 remaining_lease))).
    rewrite !H2 by (simpl; lia). by_compute.
  - change (convert_lease lim (VStr "99 years"))
      with (let! years := py_int lim "99" in
            let! f := float_of_int years in
            Ok (VFloat (cap99 f))).
    rewrite !H2 by (simpl; lia). by_compute.
  - by_compute.
  - reflexivity.
Qed.

(** C1.  [standardize_remaining_lease] promises that a lease above the
    range is capped at 99.0 without an error.  On the text of a year count
    of 401 digits the conversion to float raises instead: whatever the
    limit on the length of int literals, the call does not return, and with
    the limit off (0) or at its default (4300) it raises [OverflowError]. *)
Theorem convert_lease_huge_years_raises :
  (forall lim, is_ok (convert_lease lim (VStr huge_years)) = false)
  /\ convert_lease 0 (VStr huge_years) = Raise OverflowError
  /\ convert_lease 4300 (VStr huge_years) = Raise OverflowError.
Proof.
  assert (Hf : re_match re_full huge_years = None) by (vm_compute; reflexivity).
  assert (Hy : re_match re_years huge_years = Some ["1" +:+ zeros 400])
    by (vm_compute; reflexivity).
  assert (Ho : float_of_int (digits_to_Z ("1" +:+ zeros 400)) = Raise OverflowError)
    by (vm_compute; reflexivity).
  assert (G : forall lim,
             convert_lease lim (VStr huge_years)
             = let! years := py_int lim ("1" +:+ zeros 400) in
               let! f := float_of_int years in Ok (VFloat (cap99 f))).
  { intros lim. unfold convert_lease. now rewrite Hf, Hy. }
  split; [|split].
  - intros lim. rewrite G. unfold py_int.
    destruct ((640 <=? lim)%nat && (lim <? String.length ("1" +:+ zeros 400))%nat);
      [reflexivity|].
    cbn [bind]. now rewrite Ho.
  - rewrite G. change (py_int 0 ("1" +:+ zeros 400))
      with (Ok (A:=Z) (digits_to_Z ("1" +:+ zeros 400))).
    cbn [bind]. now rewrite Ho.
  - rewrite G.
    assert (Hp : py_int 4300 ("1" +:+ zeros 400)
                 = Ok (digits_to_Z ("1" +:+ zeros 400)))
      by (vm_compute; reflexivity).
    rewrite Hp. cbn [bind]. now rewrite Ho.
Qed.

Lemma maybe_convert_objects_floats (l : list pyval) :
  Forall (fun v => is_float_val v = true) l -> maybe_convert_objects l = l.
Proof.
  intros H. unfold maybe_convert_objects.
  destruct (existsb is_float_val l
            && forallb (fun v => is_float_val v || is_none_val v) l);
    [|reflexivity].
  induction H as [|v l Hv _ IH]; simpl; [reflexivity|].
  destruct v; try discriminate. simpl. now rewrite IH.
Qed.

(** After the inference a column that holds a float holds floats only,
    each of them a value that the numeric branch returns unchanged. *)
Lemma series_apply_convert_lease_floats (lim : nat) (col out : list pyval) :
  series_apply (convert_lease lim) col = Ok out ->
  existsb is_float_val out = true ->
  Forall (fun v => exists f, v = VFloat f /\ cap99 f = f) out.
Proof.
  unfold series_apply. intros H Hex.
  apply bind_ok_inv in H as (out0 & H0 & H). injection H as <-.
  assert (Hall : Forall (fun r => r = VNone \/ exists f, r = VFloat (cap99 f)) out0).
  { clear Hex. revert out0 H0.
    induction col as [|v col IH]; simpl; intros out0 H0.
    - injection H0 as <-. constructor.
    - apply bind_ok_inv in H0 as (b & Hb & H0).
      apply bind_ok_inv in H0 as (bs & Hbs & H0). injection H0 as <-.
      constructor; [eapply convert_lease_ok_inv; eassumption | eauto]. }
  unfold maybe_convert_objects in *.
  destruct (existsb is_float_val out0
            && forallb (fun v => is_float_val v || is_none_val v) out0) eqn:E.
  - clear E Hex H0. induction Hall as [|r l Hr _ IH]; simpl; constructor; auto.
    destruct Hr as [->|[f ->]]; simpl.
    + exists NaN. auto.
    + exists (cap99 f). split; [reflexivity | apply cap99_idem].
  - apply andb_false_iff in E as [E|E]; [congruence|].
    exfalso. clear Hex H0.
    induction Hall as [|r l Hr _ IH]; simpl in E; [discriminate|].
    destruct Hr as [->|[f ->]]; simpl in E; auto.
Qed.

(** C2, as the code has it.  When the standardized column holds at least
    one number, a second application returns the same table: every value
    of the column is then a float (a [None] result is stored as nan), and
    the numeric branch returns each of them as it is. *)
Theorem standardize_remaining_lease_twice
  (lim : nat) (df df1 : DataFrame)
  (Hfirst : standardize_remaining_lease lim df = Ok df1)
  (Hnum : exists r f, r ∈ df_rows df1
                      /\ r !! "remaining_lease" = Some (VFloat f)) :
  standardize_remaining_lease lim df1 = Ok df1
  /\ (forall r, r ∈ df_rows df1 ->
        exists f, r !! "remaining_lease" = Some (VFloat f)
                  /\ convert_lease lim (VFloat f) = Ok (VFloat f)).
Proof.
  unfold standardize_remaining_lease in Hfirst.
  apply bind_ok_inv in Hfirst as (col & Hcol & Hfirst).
  apply bind_ok_inv in Hfirst as (out & Hout & Hfirst).
  injection Hfirst as <-.
  apply get_column_ok_inv in Hcol as [Hin ->].
  assert (Hlen : length out = length (df_rows df)).
  { unfold series_apply in Hout.
    apply bind_ok_inv in Hout as (out0 & H0 & H). injection H as <-.
    apply map_result_length in H0. rewrite length_map in H0.
    unfold maybe_convert_objects.
    destruct (_ && _); [rewrite length_map|]; exact H0. }
  assert (Hcells : map (fun r => cell r "remaining_lease")
                     (df_rows (set_column df "remaining_lease" out)) = out)
    by (apply cells_zip_insert, Hlen).
  assert (Hex : existsb is_float_val out = true).
  { destruct Hnum as (r & f & Hr & Hf).
    apply existsb_exists. exists (VFloat f). split; [|reflexivity].
    rewrite <- Hcells. apply in_map_iff. exists r. split.
    - unfold cell. now rewrite Hf.
    - now apply list_elem_of_In. }
  pose proof (series_apply_convert_lease_floats _ _ _ Hout Hex) as Hfl.
  split.
  - unfold standardize_remaining_lease.
    rewrite get_set_column by exact Hlen. cbn [bind].
    unfold series_apply. rewrite map_result_id.
    + cbn [bind]. rewrite maybe_convert_objects_floats.
      * now rewrite set_column_twice.
      * eapply Forall_impl; [exact Hfl|]. now intros v (f & -> & _).
    + eapply Forall_impl; [exact Hfl|]. intros v (f & -> & Hf).
      simpl. now rewrite Hf.
  - intros r Hr.
    assert (Hc : cell r "remaining_lease" ∈ out).
    { rewrite <- Hcells. apply list_elem_of_In.
      apply (in_map (fun r => cell r "remaining_lease")).
      now apply list_elem_of_In. }
    rewrite Forall_forall in Hfl. destruct (Hfl _ Hc) as (f & Hf & Hcap).
    assert (Hsome : is_Some (r !! "remaining_lease")).
    { simpl in Hr. apply list_elem_of_lookup in Hr as [i Hi].
      apply lookup_zip_with_Some in Hi as (r0 & v & -> & _ & _).
      rewrite lookup_insert_eq. eauto. }
    destruct Hsome as [v Hv]. unfold cell in Hf. rewrite Hv in Hf.
    simpl in Hf. subst v. exists f. split; [exact Hv|].
    simpl. now rewrite Hcap.
Qed.

Lemma standardize_remaining_lease_twice_witness :
  standardize_remaining_lease 4300 mixed_lease_out = Ok mixed_lease_out
  /\ (forall r, r ∈ df_rows mixed_lease_out ->
        exists f, r !! "remaining_lease" = Some (VFloat f)
                  /\ convert_lease 4300 (VFloat f) = Ok (VFloat f)).
Proof.
  apply (standardize_remaining_lease_twice 4300 mixed_lease_frame mixed_lease_out).
  - by_compute.
  - exists {[ "remaining_lease" := VFloat NaN ]}, NaN. split.
    + apply list_elem_of_In. left. reflexivity.
    + reflexivity.
Defined.

(** C2 as stated fails: the table whose only value is ["garbage"] is
    standardized to a column holding [None], and standardizing that table
    again raises [TypeError]. *)
Lemma standardize_remaining_lease_twice_fails :
  ~ (forall lim df df1,
       standardize_remaining_lease lim df = Ok df1 ->
       standardize_remaining_lease lim df1 = Ok df1).
Proof.
  intros H.
  assert (E : standardize_remaining_lease 4300 garbage_frame = Ok none_frame)
    by by_compute.
  apply H in E.
  assert (E' : standardize_remaining_lease 4300 none_frame = Raise TypeError)
    by by_compute.
  congruence.
Qed.



(** ** Text normalizer *)

Lemma py_lstrip_spec (s : string) :
  exists l, all_space l = true /\ s = l +:+ py_lstrip s
            /\ not_space (first_char (py_lstrip s)).
Proof.
  induction s as [|c s IH]; simpl.
  - exists EmptyString. auto.
  - destruct (is_space c) eqn:E.
    + destruct IH as (l & Hl & Hs & Hf).
      exists (String c l). simpl. rewrite E, Hl.
      split; [reflexivity|]. split; [|exact Hf].
      change (String c s = String c (l +:+ py_lstrip s)). now f_equal.
    + exists EmptyString. simpl. auto.
Qed.

Lemma py_rstrip_spec (s : string) :
  exists r, all_space r = true /\ s = py_rstrip s +:+ r
            /\ not_space (last_char (py_rstrip s)).
Proof.
  induction s as [|c s IH]; simpl.
  - exists EmptyString. auto.
  - destruct IH as (r & Hr & Hs & Hl).
    destruct (py_rstrip s) as [|d t] eqn:E.
    + change (s = r) in Hs. subst s. destruct (is_space c) eqn:Ec.
      * exists (String c r). simpl. rewrite Ec, Hr. auto.
      * exists r. simpl. auto.
    + exists r. split; [exact Hr|]. split.
      * change (String c s = String c (String d t +:+ r)). now f_equal.
      * destruct t; exact Hl.
Qed.

(** Trimming on the right keeps the first character. *)
Lemma py_rstrip_first (s : string) :
  not_space (first_char s) -> not_space (first_char (py_rstrip s)).
Proof.
  destruct s as [|c s]; simpl; [auto|]. intros Hc.
  destruct (py_rstrip s); [rewrite Hc|]; exact Hc.
Qed.

Lemma py_strip_spec (s : string) : is_trim_of s (py_strip s).
Proof.
  unfold is_trim_of, py_strip.
  destruct (py_lstrip_spec s) as (l & Hl & Hs & Hf).
  destruct (py_rstrip_spec (py_lstrip s)) as (r & Hr & Ht & Hlast).
  exists l, r. repeat split; auto.
  - now rewrite <- Ht.
  - now apply py_rstrip_first.
Qed.


(** No lower-case letter is left after [upper()]. *)
Lemma upper_char_not_lower (c : ascii) : is_lower (upper_char c) = false.
Proof.
  unfold upper_char. destruct (is_lower c) eqn:E; [|exact E].
  unfold is_lower in *.
  apply andb_true_iff in E as [E1 E2].
  apply Nat.leb_le in E1, E2.
  rewrite nat_ascii_embedding by lia.
  apply andb_false_iff. left. apply Nat.leb_gt. lia.
Qed.

(** What the two [.str] calls make of one cell. *)
Lemma str_cell_strip_upper (v : pyval) :
  str_cell py_upper (str_cell py_strip v)
  = match v with
    | VStr s => VStr (py_upper (py_strip s))
    | _ => if isna v then v else VFloat NaN
    end.
Proof. destruct v as [| |[| | |q]|n|s|d]; reflexivity. Qed.

Lemma str_method_ok_inv (f : string -> string) (col out : list pyval) :
  str_method f col = Ok out -> out = map (str_cell f) col.
Proof.
  unfold str_method. destruct (str_accessor_ok col); [|discriminate].
  now intros [= <-].
Qed.

Lemma str_accessor_ok_map (f : string -> string) (col : list pyval) :
  str_accessor_ok col = true ->
  str_accessor_ok (map (str_cell f) col) = true.
Proof.
  unfold str_accessor_ok. intros H.
  apply orb_true_iff in H as [H|H]; apply orb_true_iff; [left|right].
  - induction col as [|v col IH]; simpl in *; [reflexivity|].
    apply andb_true_iff in H as [Hv H]. rewrite (IH H), andb_true_r.
    destruct v as [| |[| | |q]|n|s|d]; try discriminate Hv; reflexivity.
  - induction col as [|v col IH]; simpl in *; [discriminate|].
    apply orb_true_iff in H as [Hv|H].
    + destruct v; try discriminate Hv. reflexivity.
    + rewrite (IH H). apply orb_true_r.
Qed.



(** The examples of the specification: ["  abc "] becomes ["ABC"] and a
    missing value stays missing; the int 5 becomes nan. *)
Lemma clean_flat_model_example :
  (let! d := clean_flat_model flat_model_frame in get_column d "flat_model")
  = Ok [VStr "ABC"; VFloat NaN; VNone].
Proof. by_compute. Qed.


(** ** Lease imputer *)

Lemma float_overflow_large : 2 ^ 64 < float_overflow.
Proof. reflexivity. Qed.

(** A fraction below the overflow threshold is a finite float. *)
Lemma Qc_overflows_small (q : Q) :
  (- inject_Z (2 ^ 64)%Z < q)%Q -> (q < inject_Z (2 ^ 64)%Z)%Q ->
  Qc_overflows (Q2Qc q) = false.
Proof.
  intros Hlo Hhi. unfold Qc_overflows.
  destruct (Qle_bool (inject_Z float_overflow) (Qabs (Q2Qc q))) eqn:E;
    [|reflexivity].
  exfalso. apply Qle_bool_iff in E.
  change (this (Q2Qc q)) with (Qred q) in E. rewrite Qred_correct in E.
  assert (Habs : (Qabs q < inject_Z (2 ^ 64)%Z)%Q)
    by (apply Qabs_Qlt_condition; split; assumption).
  assert (Hle : (inject_Z (2 ^ 64)%Z <= inject_Z float_overflow)%Q).
  { rewrite <- Zle_Qle. apply Z.lt_le_incl, float_overflow_large. }
  apply (Qlt_irrefl (Qabs q)).
  eapply Qlt_le_trans; [exact Habs|]. eapply Qle_trans; eassumption.
Qed.

(** The arithmetic of one row, on the month of a timestamp and an int. *)
Lemma py_truediv_month (m : Z) :
  1 <= m <= 12 ->
  py_truediv (VInt m) 12 = Ok (VFloat (Fin (Q2Qc (m # 12)))).
Proof.
  intros Hm. cbn [py_truediv]. unfold int_true_div.
  rewrite Qc_overflows_small; [reflexivity | |]; unfold Qlt; simpl; lia.
Qed.

Lemma py_sub_int_month (k m : Z) :
  Z.abs k <= 2 ^ 63 -> 1 <= m <= 12 ->
  py_sub (VInt k) (VFloat (Fin (Q2Qc (m # 12))))
  = Ok (VFloat (Fin (Q2Qc (inject_Z k) - Q2Qc (m # 12))%Qc)).
Proof.
  intros Hk Hm.
  assert (H63 : 2 ^ 63 = 9223372036854775808) by reflexivity.
  assert (H64 : 2 ^ 64 = 18446744073709551616) by reflexivity.
  pose proof float_overflow_large as HT.
  cbn [py_sub]. unfold float_of_int.
  rewrite (proj2 (Z.ltb_lt _ _)) by lia.
  cbn [bind float_sub float_neg float_add].
  unfold float_of_exact, Qcminus, Qcplus, Qcopp.
  rewrite Qc_overflows_small; [reflexivity | |];
    simpl; rewrite !Qred_correct; unfold Qlt; simpl; lia.
Qed.

Lemma dt_field_dates (f : date -> Z) (l : list pyval) :
  Forall (fun v => exists d, v = VDate d) l ->
  dt_field f l
  = Ok (map (fun v => match v with VDate d => VInt (f d) | _ => VFloat NaN end) l).
Proof.
  intros H. unfold dt_field.
  assert (H1 : forallb is_datetime_val l = true).
  { induction H as [|v l [d ->] _ IH]; simpl; auto. }
  rewrite H1. f_equal. unfold numeric_column.
  assert (H2 : existsb is_float_val
                 (map (fun v => match v with
                                | VDate d => VInt (f d)
                                | _ => VFloat NaN
                                end) l) = false).
  { induction H as [|v l [d ->] _ IH]; simpl; auto. }
  now rewrite H2.
Qed.

(** C4.  On a table with a date column 'month' and an integer column
    'lease_commence_date' the imputer returns, and in every row it writes
    remaining_lease = round(99 - (current_year - commence_year)
    - current_month / 12, 1).  Nothing is clamped: a lease that began in
    1900 is imputed as -22.0 in December 2020, and one that begins in 2030
    as 108.5 in June 2020. *)
Theorem impute_remaining_lease_rows (df : DataFrame)
  (Hmonth : "month" ∈ df_columns df)
  (Hlcd : "lease_commence_date" ∈ df_columns df)
  (Hrows : Forall imputer_row (df_rows df)) :
  (exists df1,
     impute_remaining_lease df = Ok df1
     /\ length (df_rows df1) = length (df_rows df)
     /\ forall i r y m d c,
          df_rows df !! i = Some r ->
          cell r "month" = VDate (Date y m d) ->
          cell r "lease_commence_date" = VInt c ->
          exists r1,
            df_rows df1 !! i = Some r1
            /\ r1 !! "remaining_lease"
               = Some (VFloat (Fin (lease_formula y m c))))
  /\ lease_formula 2020 12 1900 = tenths (-220)
  /\ lease_formula 2020 6 2030 = tenths 1085.
Proof.
  split; [|split; by_compute].
  set (rows := df_rows df) in *.
  pose (ry := fun r : gmap string pyval =>
                match cell r "month" with VDate d => year d | _ => 0 end).
  pose (rm := fun r : gmap string pyval =>
                match cell r "month" with VDate d => month d | _ => 0 end).
  pose (rc := fun r : gmap string pyval =>
                match cell r "lease_commence_date" with VInt c => c | _ => 0 end).
  assert (Hrow : forall r, r ∈ rows ->
            (exists d, cell r "month" = VDate d)
            /\ cell r "lease_commence_date" = VInt (rc r)
            /\ 1677 <= ry r <= 2262 /\ 1 <= rm r <= 12
            /\ Z.abs (rc r) <= 2 ^ 62).
  { intros r Hr. rewrite Forall_forall in Hrows.
    destruct (Hrows r Hr) as (y & m & d & c & Hd & Hy & Hm & Hc & Hb).
    unfold ry, rm, rc. rewrite Hd, Hc. simpl. eauto 10. }
  unfold impute_remaining_lease.
  (* current_year *)
  rewrite (get_column_in df "month") by assumption. cbn [bind]. fold rows.
  rewrite dt_field_dates; cycle 1.
  { apply Forall_forall. intros v Hv. apply list_elem_of_In, in_map_iff in Hv as (r & <- & Hr).
    apply list_elem_of_In in Hr. now destruct (Hrow r Hr) as (? & _). }
  cbn [bind]. rewrite map_map.
  match goal with |- context [set_column df "current_year" (map ?g rows)] =>
    set (gy := g); set (df_a := set_column df "current_year" (map gy rows)) end.
  assert (Ra : df_rows df_a = map (fun r => <["current_year" := gy r]> r) rows).
  { unfold df_a. rewrite (set_column_rows_map df _ id gy rows); [reflexivity|].
    now rewrite map_id. }
  (* current_month *)
  rewrite (get_column_in df_a "month") by (apply in_set_column; auto).
  cbn [bind]. rewrite Ra, map_map.
  rewrite dt_field_dates; cycle 1.
  { apply Forall_forall. intros v Hv. apply list_elem_of_In, in_map_iff in Hv as (r & <- & Hr).
    apply list_elem_of_In in Hr. rewrite cell_insert_ne by discriminate.
    now destruct (Hrow r Hr) as (? & _). }
  cbn [bind]. rewrite map_map.
  match goal with |- context [set_column df_a "current_month" (map ?g rows)] =>
    set (gm := g); set (df_b := set_column df_a "current_month" (map gm rows)) end.
  assert (Rb : df_rows df_b
               = map (fun r => <["current_month" := gm r]>
                                 (<["current_year" := gy r]> r)) rows).
  { unfold df_b. now rewrite (set_column_rows_map df_a _ _ gm rows Ra). }
  (* years_elapsed *)
  rewrite (get_column_in df_b "current_year")
    by (apply in_set_column; right; apply in_set_column; auto).
  cbn [bind].
  rewrite (get_column_in df_b "lease_commence_date")
    by (apply in_set_column; right; apply in_set_column; auto).
  cbn [bind]. rewrite Rb, !map_map.
  unfold series_sub. rewrite zip_map_map, map_result_map.
  rewrite (map_result_ok_map _ (fun r => VInt (ry r - rc r))); cycle 1.
  { intros r Hr. destruct (Hrow r Hr) as ([d Hd] & Hc & _).
    rewrite cell_insert_ne by discriminate. rewrite cell_insert_eq.
    rewrite !cell_insert_ne by discriminate. rewrite Hc.
    unfold gy, ry. rewrite Hd. reflexivity. }
  cbn [bind].
  (* months_fraction *)
  rewrite (get_column_in df_b "current_month") by (apply in_set_column; auto).
  cbn [bind]. rewrite Rb, map_map, map_result_map.
  rewrite (map_result_ok_map _ (fun r => VFloat (Fin (Q2Qc (rm r # 12))))); cycle 1.
  { intros r Hr. destruct (Hrow r Hr) as ([d Hd] & _ & _ & Hm & _).
    rewrite cell_insert_eq. unfold gm. rewrite cell_insert_ne by discriminate.
    unfold rm in *. rewrite Hd in *. now apply py_truediv_month. }
  cbn [bind].
  (* 99 - years_elapsed - months_fraction, rounded *)
  rewrite map_result_map.
  rewrite (map_result_ok_map _ (fun r => VInt (99 - (ry r - rc r))))
    by reflexivity.
  cbn [bind]. rewrite zip_map_map, map_result_map.
  rewrite (map_result_ok_map _
             (fun r => VFloat (Fin (Q2Qc (inject_Z (99 - (ry r - rc r)))
                                    - Q2Qc (rm r # 12))%Qc))); cycle 1.
  { intros r Hr. destruct (Hrow r Hr) as (_ & _ & Hy & Hm & Hc).
    assert (H62 : 2 ^ 62 = 4611686018427387904) by reflexivity.
    assert (H63 : 2 ^ 63 = 9223372036854775808) by reflexivity.
    apply py_sub_int_month; [lia | assumption]. }
  cbn [bind]. rewrite map_result_map.
  rewrite (map_result_ok_map _
             (fun r => VFloat (Fin (lease_formula (ry r) (rm r) (rc r)))))
    by reflexivity.
  cbn [bind].
  match goal with |- context [set_column df_b "remaining_lease" (map ?g rows)] =>
    set (gl := g); set (df_c := set_column df_b "remaining_lease" (map gl rows)) end.
  assert (Rc : df_rows df_c
               = map (fun r => <["remaining_lease" := gl r]>
                                 (<["current_month" := gm r]>
                                    (<["current_year" := gy r]> r))) rows).
  { unfold df_c. now rewrite (set_column_rows_map df_b _ _ gl rows Rb). }
  (* the temporary columns are dropped *)
  destruct (drop_column_in df_c "current_year") as (df_d & Hd & Rd).
  { apply in_set_column. right. apply in_set_column. right.
    apply in_set_column. auto. }
  rewrite Hd. cbn [bind].
  destruct (drop_column_in df_d "current_month") as (df_e & He & Re).
  { apply (in_drop_column _ _ _ _ Hd); [discriminate|].
    apply in_set_column. right. apply in_set_column. auto. }
  exists df_e. split; [exact He|].
  rewrite Re, Rd, Rc, !map_map. split; [apply length_map|].
  intros i r y m d c Hi Hdate Hcom.
  rewrite lookup_map, Hi. eexists. split; [reflexivity|].
  rewrite !lookup_delete_ne by discriminate. rewrite lookup_insert_eq.
  unfold gl, ry, rm, rc. rewrite Hdate, Hcom. reflexivity.
Qed.

Lemma impute_remaining_lease_rows_witness :
  exists df1,
    impute_remaining_lease imputer_frame = Ok df1
    /\ length (df_rows df1) = length (df_rows imputer_frame).
Proof.
  assert (Hrows : Forall imputer_row (df_rows imputer_frame)).
  { repeat constructor.
    - exists 2020, 3, 1, 1990. repeat split; try lia; try by_compute.
    - exists 2020, 12, 1, 1900. repeat split; try lia; try by_compute.
    - exists 2020, 6, 1, 2030. repeat split; try lia; try by_compute. }
  destruct (impute_remaining_lease_rows imputer_frame
              ltac:(by_compute) ltac:(by_compute) Hrows)
    as [(df1 & H1 & H2 & _) _].
  exists df1. split; assumption.
Defined.

(** The three rows of the example: 68.8, -22.0 and 108.5. *)
Lemma impute_remaining_lease_example :
  (let! d := impute_remaining_lease imputer_frame in
   get_column d "remaining_lease")
  = Ok [VFloat (Fin (tenths 688)); VFloat (Fin (tenths (-220)));
        VFloat (Fin (tenths 1085))].
Proof. by_compute. Qed.

(** ** Deduplicator and reporter *)

Lemma select_map {A B : Type} (f : A -> B) (mask : list bool) (l : list A) :
  map f (select mask l) = select mask (map f l).
Proof.
  revert l. induction mask as [|b mask IH]; intros [|a l]; simpl; auto.
  destruct b; simpl; now rewrite IH.
Qed.

Lemma select_sublist {A : Type} (mask : list bool) (l : list A) :
  sublist (select mask l) l.
Proof.
  revert l. induction mask as [|b mask IH]; intros [|a l]; simpl;
    try apply sublist_nil_l.
  destruct b; [apply sublist_skip | apply sublist_cons]; apply IH.
Qed.


(** The keys that are kept are pairwise different and were not seen
    before, and no key is lost. *)
Lemma duplicated_from_kept (seen keys : list (list pyval)) :
  let kept := select (map negb (duplicated_from seen keys)) keys in
  NoDup kept
  /\ (forall k, k ∈ kept -> k ∉ seen)
  /\ (forall k, k ∈ keys -> k ∈ kept \/ k ∈ seen).
Proof.
  revert seen. induction keys as [|k0 keys IH]; intros seen; simpl.
  - split; [constructor|]. split; intros k Hk; inversion Hk.
  - destruct (IH (k0 :: seen)) as (Hnd & Hdis & Hcov).
    destruct (bool_decide_reflect (k0 ∈ seen)) as [Hin|Hin]; simpl.
    + split; [exact Hnd|]. split.
      * intros k Hk Hs. apply (Hdis k Hk). now right.
      * intros k Hk. apply elem_of_cons in Hk as [->|Hk]; [now right|].
        destruct (Hcov k Hk) as [?|Hs]; [now left|].
        apply elem_of_cons in Hs as [->|Hs]; now right.
    + split; [|split].
      * constructor; [|exact Hnd]. intros Hk. apply (Hdis k0 Hk). now left.
      * intros k Hk. apply elem_of_cons in Hk as [->|Hk]; [exact Hin|].
        intros Hs. apply (Hdis k Hk). now right.
      * intros k Hk. apply elem_of_cons in Hk as [->|Hk]; [left; now left|].
        destruct (Hcov k Hk) as [?|Hs]; [left; now right|].
        apply elem_of_cons in Hs as [->|Hs]; [left; now left | now right].
Qed.





(** On the example, the third and the fifth row repeat an earlier one. *)
Lemma clean_dataset_example :
  clean_dataset duplicate_frame "resale"
  = ([PStr "Cleaning dataset: resale";
      PStr "resale: Number of duplicates: 2";
      PStr "resale: Missing values per column:";
      PCounts [("a", 1%nat)]],
     frame ["a"] [[("a", VInt 1)]; [("a", VInt 2)]; [("a", VNone)]]).
Proof. by_compute. Qed.

(** ** Date normalizer *)

Lemma map_result_raise {A B : Type} (f : A -> result B) (l : list A) (e : exn) :
  (exists a, a ∈ l /\ f a = Raise e) ->
  (forall a e', a ∈ l -> f a = Raise e' -> e' = e) ->
  map_result f l = Raise e.
Proof.
  induction l as [|x l IH]; intros (a & Ha & Hf) Hall.
  - inversion Ha.
  - simpl. destruct (f x) as [b|e'] eqn:E.
    + cbn [bind]. rewrite IH; [reflexivity| |].
      * apply elem_of_cons in Ha as [->|Ha]; [congruence|]. eauto.
      * intros a' e' Ha' Hf'. apply (Hall a' e'); [now right | exact Hf'].
    + cbn [bind]. f_equal. apply (Hall x e'); [now left | exact E].
Qed.

Lemma to_datetime_cell_raise (other : string -> option date) (v : pyval)
  (e : exn) :
  to_datetime_cell other v = Raise e -> e = ValueError.
Proof.
  destruct v as [| |[| | |q]|n|s|d]; simpl; try discriminate;
    try (now intros [= <-]).
  destruct (_ || _); [discriminate|].
  destruct (strptime_Ym other s); [discriminate | now intros [= <-]].
Qed.

(** A canonical text of a month in a year that a timestamp holds is read
    as the first day of that month, whatever the version of pandas. *)
Lemma to_datetime_cell_canonical (other : string -> option date) (s : string)
  (y m : Z) :
  parse_YYYY_MM s = Some (y, m) ->
  timestamp_year y = true -> 1 <= m <= 12 ->
  to_datetime_cell other (VStr s) = Ok (VDate (Date y m 1)).
Proof.
  intros Hp Hy Hm. simpl.
  assert (Hs : bool_decide (s = EmptyString) || bool_decide (s ∈ nat_strings) = false).
  { apply orb_false_iff. split; apply bool_decide_eq_false.
    - intros ->. discriminate Hp.
    - intros Hin. unfold nat_strings in Hin.
      repeat (apply elem_of_cons in Hin as [->|Hin]; [discriminate Hp|]).
      inversion Hin. }
  rewrite Hs. unfold strptime_Ym. rewrite Hp, Hy.
  rewrite (proj2 (Z.leb_le _ _)) by lia. rewrite (proj2 (Z.leb_le _ _)) by lia.
  reflexivity.
Qed.

(** C6, as the code has it.  A text that is neither empty nor one of the
    spellings of a missing date, and that the format does not accept, makes
    the whole call raise [ValueError]: no null is produced for it.  When
    every value is a [YYYY-MM] text of a month 01-12 in a year that a
    timestamp holds, the call returns and every value is the first day of
    its month.  The empty text and the spellings of a missing date are
    read as [NaT] without an error. *)
Theorem convert_month_to_datetime_strict
  (other : string -> option date) (df : DataFrame) (column_name : string)
  (Hcol : column_name ∈ df_columns df) :
  ((exists r s, r ∈ df_rows df /\ cell r column_name = VStr s
                /\ s <> EmptyString /\ (s ∉ nat_strings)
                /\ strptime_Ym other s = None) ->
   convert_month_to_datetime other df column_name = Raise ValueError)
  /\ ((forall r, r ∈ df_rows df ->
         exists s y m, cell r column_name = VStr s
                       /\ parse_YYYY_MM s = Some (y, m)
                       /\ timestamp_year y = true /\ 1 <= m <= 12) ->
      exists df1,
        convert_month_to_datetime other df column_name = Ok df1
        /\ length (df_rows df1) = length (df_rows df)
        /\ forall i r s y m,
             df_rows df !! i = Some r -> cell r column_name = VStr s ->
             parse_YYYY_MM s = Some (y, m) ->
             exists r1, df_rows df1 !! i = Some r1
                        /\ r1 !! column_name = Some (VDate (Date y m 1)))
  /\ (forall s, s = EmptyString \/ s ∈ nat_strings ->
        to_datetime_cell other (VStr s) = Ok VNaT).
Proof.
  split; [|split].
  - intros (r & s & Hr & Hc & Hne & Hnat & Hp).
    unfold convert_month_to_datetime.
    rewrite get_column_in by assumption. cbn [bind].
    rewrite (map_result_raise _ _ ValueError); [reflexivity| |].
    + exists (VStr s). split.
      * rewrite <- Hc. apply list_elem_of_In.
        apply (in_map (fun r => cell r column_name)). now apply list_elem_of_In.
      * simpl. rewrite Hp.
        rewrite (bool_decide_eq_false_2 _ Hne), (bool_decide_eq_false_2 _ Hnat).
        reflexivity.
    + intros a e' _. apply to_datetime_cell_raise.
  - intros Hall.
    pose (g := fun r : gmap string pyval =>
                 match cell r column_name with
                 | VStr s => match parse_YYYY_MM s with
                             | Some (y, m) => VDate (Date y m 1)
                             | None => VNaT
                             end
                 | _ => VNaT
                 end).
    unfold convert_month_to_datetime.
    rewrite get_column_in by assumption. cbn [bind].
    rewrite map_result_map.
    rewrite (map_result_ok_map _ g); cycle 1.
    { intros r Hr. destruct (Hall r Hr) as (s & y & m & Hc & Hp & Hy & Hm).
      unfold g. rewrite Hc, Hp. now apply to_datetime_cell_canonical. }
    cbn [bind]. eexists. split; [reflexivity|].
    rewrite (set_column_rows_map df _ id g); [|now rewrite map_id].
    split; [apply length_map|].
    intros i r s y m Hi Hc Hp. rewrite lookup_map, Hi.
    eexists. split; [reflexivity|].
    rewrite lookup_insert_eq. unfold g. now rewrite Hc, Hp.
  - intros s Hs. simpl.
    destruct Hs as [->|Hs]; [reflexivity|].
    rewrite (bool_decide_eq_true_2 _ Hs). now rewrite orb_true_r.
Qed.

Lemma convert_month_to_datetime_strict_witness :
  convert_month_to_datetime strict_format bad_month_frame "month"
  = Raise ValueError.
Proof.
  apply (proj1 (convert_month_to_datetime_strict strict_format
                  bad_month_frame "month" ltac:(by_compute))).
  exists {[ "month" := VStr "March 2020" ]}, "March 2020".
  split; [|split; [|split; [|split]]].
  - apply list_elem_of_In. right. left. reflexivity.
  - by_compute.
  - discriminate.
  - apply (bool_decide_eq_false_1 _). vm_compute. reflexivity.
  - reflexivity.
Defined.

(** The examples: two canonical months, and a column with an empty text. *)
Lemma convert_month_to_datetime_examples :
  (let! d := convert_month_to_datetime strict_format month_frame "month" in
   get_column d "month")
  = Ok [VDate (Date 2020 3 1); VDate (Date 2019 12 1)]
  /\ (let! d := convert_month_to_datetime strict_format empty_month_frame "month" in
      get_column d "month")
     = Ok [VDate (Date 2020 3 1); VNaT].
Proof. split; by_compute. Qed.

(** C6 as stated fails: the empty text does not have the form [YYYY-MM],
    yet the call returns, with [NaT] in its place. *)
Lemma convert_month_to_datetime_empty_text_is_null :
  ~ (forall (other : string -> option date) df column_name,
       (exists r s, r ∈ df_rows df /\ cell r column_name = VStr s
                    /\ parse_YYYY_MM s = None) ->
       is_ok (convert_month_to_datetime other df column_name) = false).
Proof.
  intros H.
  specialize (H strict_format empty_month_frame "month").
  assert (E : is_ok (convert_month_to_datetime strict_format
                       empty_month_frame "month") = true) by by_compute.
  rewrite H in E; [discriminate|].
  exists {[ "month" := VStr "" ]}, "".
  split; [|split].
  - apply list_elem_of_In. right. left. reflexivity.
  - by_compute.
  - reflexivity.
Qed.

(** ** Column splitter (range) *)

(** C7.  The splitter is to turn a value that cannot be parsed into
    missing bounds, without an error.  On the table whose only value is
    ["bad"] the split has one column, the assignment to the two columns
    'lower_storey' and 'upper_storey' is refused and the call raises
    [ValueError], whatever [pd.to_numeric] would read.  The same happens
    when a value holds the separator twice, and on the empty table. *)
Theorem split_storey_range_bad_raises :
  forall other : string -> option pyval,
    split_storey_range other bad_storey_frame = Raise ValueError
    /\ split_storey_range other triple_storey_frame = Raise ValueError
    /\ split_storey_range other (frame ["storey_range"] []) = Raise ValueError.
Proof.
  intros other. split; [|split]; vm_compute; reflexivity.
Qed.

(** Next to a value that splits in two, the same ["bad"] gives two missing
    bounds, and whole numbers are read as such. *)
Lemma split_storey_range_examples :
  (let! d := split_storey_range (fun _ => None) mixed_storey_frame in
   let! lower := get_column d "lower_storey" in
   let! upper := get_column d "upper_storey" in
   Ok (lower, upper))
  = Ok ([VFloat (float_of_int64 4); VFloat NaN],
        [VFloat (float_of_int64 6); VFloat NaN])
  /\ (let! d := split_storey_range (fun _ => None) storey_frame in
      let! lower := get_column d "lower_storey" in
      let! upper := get_column d "upper_storey" in
      Ok (lower, upper))
     = Ok ([VInt 4; VInt 10], [VInt 6; VInt 12]).
Proof. split; by_compute. Qed.

Lemma string_app_nil_r (s : string) : s +:+ EmptyString = s.
Proof.
  induction s as [|c s IH]; [reflexivity|].
  change (String c s +:+ EmptyString) with (String c (s +:+ EmptyString)).
  now rewrite IH.
Qed.

Lemma string_app_assoc (a b c : string) : (a +:+ b) +:+ c = a +:+ (b +:+ c).
Proof.
  induction a as [|x a IH]; [reflexivity|].
  change (String x ((a +:+ b) +:+ c) = String x (a +:+ (b +:+ c))).
  now rewrite IH.
Qed.

Lemma digit_not_blank (c : ascii) : is_digit c = true -> Ascii.eqb " " c = false.
Proof.
  destruct c as [[] [] [] [] [] [] [] []]; vm_compute; congruence.
Qed.

Lemma split_go_digits (cur d rest : string) :
  all_digits d = true ->
  split_go " TO " 0 cur (d +:+ rest) = split_go " TO " 0 (cur +:+ d) rest.
Proof.
  revert cur. induction d as [|c d IH]; intros cur Hd.
  - now rewrite string_app_nil_r.
  - simpl in Hd. apply andb_true_iff in Hd as [Hc Hd].
    change (String c d +:+ rest) with (String c (d +:+ rest)).
    cbn [split_go strip_prefix]. rewrite (digit_not_blank c Hc).
    rewrite (IH _ Hd). f_equal.
    now rewrite string_app_assoc.
Qed.

(** "L TO U" splits in its two numbers. *)
Lemma py_split_range (l u : string) :
  all_digits l = true -> all_digits u = true ->
  py_split " TO " (l +:+ " TO " +:+ u) = [l; u].
Proof.
  intros Hl Hu. unfold py_split.
  rewrite (split_go_digits _ l _ Hl).
  change (EmptyString +:+ l) with l.
  change (" TO " +:+ u) with (String " " (String "T" (String "O" (String " " u)))).
  cbn [split_go strip_prefix Ascii.eqb Bool.eqb String.length Nat.sub].
  f_equal.
  rewrite <- (string_app_nil_r u) at 1.
  rewrite (split_go_digits _ u _ Hu). reflexivity.
Qed.

Lemma parse_numeric_whole (other : string -> option pyval) (s : string) :
  whole_number s -> parse_numeric other s = Some (VInt (digits_to_Z s)).
Proof.
  intros [Hd [H1 H18]]. unfold parse_numeric. rewrite Hd.
  rewrite (proj2 (Nat.leb_le _ _) H1), (proj2 (Nat.leb_le _ _) H18).
  reflexivity.
Qed.

Lemma expand_width_const {A : Type} (p : A -> list pyval) (l : list A) (n : nat) :
  l <> [] -> (forall a, a ∈ l -> length (p a) = n) ->
  expand_width (map p l) = n.
Proof.
  induction l as [|a l IH]; intros Hne Hall; [congruence|].
  simpl. rewrite (Hall a) by left.
  destruct l as [|b l]; [simpl; lia|].
  rewrite IH; [lia | discriminate |].
  intros x Hx. apply Hall. now right.
Qed.

Lemma numeric_column_ints (l : list pyval) :
  existsb is_float_val l = false -> numeric_column l = l.
Proof. intros H. unfold numeric_column. now rewrite H. Qed.

Lemma existsb_map_false {A B : Type} (f : B -> bool) (g : A -> B) (l : list A) :
  (forall a, a ∈ l -> f (g a) = false) -> existsb f (map g l) = false.
Proof.
  induction l as [|a l IH]; intros H; simpl; [reflexivity|].
  rewrite (H a) by left. apply IH. intros x Hx. apply H. now right.
Qed.

(** On a non-empty table whose values all have the form "L TO U" the
    splitter returns, and every row gets the two numbers. *)
Lemma split_storey_range_well_formed
  (other : string -> option pyval) (df : DataFrame)
  (Hcol : "storey_range" ∈ df_columns df)
  (Hne : df_rows df <> [])
  (Hrows : Forall storey_row (df_rows df)) :
  exists df1,
    split_storey_range other df = Ok df1
    /\ length (df_rows df1) = length (df_rows df)
    /\ forall i r l u,
         df_rows df !! i = Some r ->
         cell r "storey_range" = VStr (l +:+ " TO " +:+ u) ->
         whole_number l -> whole_number u ->
         exists r1,
           df_rows df1 !! i = Some r1
           /\ r1 !! "lower_storey" = Some (VInt (digits_to_Z l))
           /\ r1 !! "upper_storey" = Some (VInt (digits_to_Z u)).
Proof.
  set (rows := df_rows df) in *.
  rewrite Forall_forall in Hrows.
  pose (split_cell := fun v =>
          match v with
          | VStr s => map VStr (py_split " TO " s)
          | _ => if isna v then [v] else [VFloat NaN]
          end).
  pose (p := fun r : gmap string pyval => split_cell (cell r "storey_range")).
  assert (Hp : forall r l u,
            cell r "storey_range" = VStr (l +:+ " TO " +:+ u) ->
            whole_number l -> whole_number u -> p r = [VStr l; VStr u]).
  { intros r l u Hc [Hl _] [Hu _]. unfold p, split_cell. rewrite Hc.
    now rewrite py_split_range. }
  assert (Hp' : forall r, r ∈ rows ->
            exists l u, p r = [VStr l; VStr u]
                        /\ whole_number l /\ whole_number u).
  { intros r Hr. destruct (Hrows r Hr) as (l & u & Hc & Hl & Hu).
    exists l, u. eauto. }
  unfold split_storey_range.
  rewrite get_column_in by assumption. cbn [bind]. fold rows.
  assert (Hsplit : str_split " TO " (map (fun r => cell r "storey_range") rows)
                   = Ok (map p rows)).
  { unfold str_split.
    assert (Hacc : str_accessor_ok
                     (map (fun r => cell r "storey_range") rows) = true).
    { unfold str_accessor_ok. apply orb_true_iff. right.
      destruct rows as [|r rows'] eqn:E; [congruence|].
      destruct (Hrows r) as (l & u & Hc & _); [left|].
      simpl. now rewrite Hc. }
    rewrite Hacc, map_map. reflexivity. }
  rewrite Hsplit. cbn [bind].
  rewrite (expand_width_const p rows 2 Hne); cycle 1.
  { intros r Hr. destruct (Hp' r Hr) as (l & u & -> & _). reflexivity. }
  cbn [Nat.eqb negb]. rewrite map_map. unfold frame_column. rewrite !map_map.
  match goal with |- context [set_column df "lower_storey" (map ?g rows)] =>
    set (g0 := g); set (df_a := set_column df "lower_storey" (map g0 rows)) end.
  assert (Ra : df_rows df_a = map (fun r => <["lower_storey" := g0 r]> r) rows).
  { unfold df_a. rewrite (set_column_rows_map df _ id g0 rows); [reflexivity|].
    now rewrite map_id. }
  match goal with |- context [set_column df_a "upper_storey" (map ?g rows)] =>
    set (g1 := g); set (df_b := set_column df_a "upper_storey" (map g1 rows)) end.
  assert (Rb : df_rows df_b
               = map (fun r => <["upper_storey" := g1 r]>
                                 (<["lower_storey" := g0 r]> r)) rows).
  { unfold df_b. now rewrite (set_column_rows_map df_a _ _ g1 rows Ra). }
  assert (Hg : forall r, r ∈ rows ->
            exists l u, g0 r = VStr l /\ g1 r = VStr u /\ p r = [VStr l; VStr u]
                        /\ whole_number l /\ whole_number u).
  { intros r Hr. destruct (Hp' r Hr) as (l & u & Hpr & Hl & Hu).
    exists l, u. unfold g0, g1. rewrite Hpr. auto. }
  rewrite (get_column_in df_b "lower_storey")
    by (apply in_set_column; right; apply in_set_column; auto).
  cbn [bind]. rewrite Rb, map_map. unfold to_numeric. rewrite map_map.
  rewrite numeric_column_ints; cycle 1.
  { apply existsb_map_false. intros r Hr.
    destruct (Hg r Hr) as (l & u & H0 & _ & _ & Hl & _).
    rewrite cell_insert_ne by discriminate. rewrite cell_insert_eq, H0.
    simpl. now rewrite parse_numeric_whole. }
  match goal with |- context [set_column df_b "lower_storey" (map ?g rows)] =>
    set (g2 := g); set (df_c := set_column df_b "lower_storey" (map g2 rows)) end.
  assert (Rc : df_rows df_c
               = map (fun r => <["lower_storey" := g2 r]>
                                 (<["upper_storey" := g1 r]>
                                    (<["lower_storey" := g0 r]> r))) rows).
  { unfold df_c. now rewrite (set_column_rows_map df_b _ _ g2 rows Rb). }
  rewrite (get_column_in df_c "upper_storey")
    by (apply in_set_column; right; apply in_set_column; auto).
  cbn [bind]. rewrite Rc, !map_map.
  rewrite numeric_column_ints; cycle 1.
  { apply existsb_map_false. intros r Hr.
    destruct (Hg r Hr) as (l & u & _ & H1 & _ & _ & Hu).
    rewrite cell_insert_ne by discriminate. rewrite cell_insert_eq, H1.
    simpl. now rewrite parse_numeric_whole. }
  match goal with |- context [set_column df_c "upper_storey" (map ?g rows)] =>
    set (g3 := g); set (df_d := set_column df_c "upper_storey" (map g3 rows)) end.
  assert (Rd : df_rows df_d
               = map (fun r => <["upper_storey" := g3 r]>
                                 (<["lower_storey" := g2 r]>
                                    (<["upper_storey" := g1 r]>
                                       (<["lower_storey" := g0 r]> r)))) rows).
  { unfold df_d. now rewrite (set_column_rows_map df_c _ _ g3 rows Rc). }
  exists df_d. split; [reflexivity|]. split; [rewrite Rd; apply length_map|].
  intros i r l u Hi Hc Hl Hu. rewrite Rd, lookup_map, Hi.
  eexists. split; [reflexivity|].
  pose proof (Hp r l u Hc Hl Hu) as Hpr.
  split.
  - rewrite lookup_insert_ne by discriminate. rewrite lookup_insert_eq.
    unfold g2. rewrite cell_insert_ne by discriminate.
    rewrite cell_insert_eq. unfold g0. rewrite Hpr. simpl.
    now rewrite parse_numeric_whole.
  - rewrite lookup_insert_eq.
    unfold g3. rewrite cell_insert_ne by discriminate.
    rewrite cell_insert_eq. unfold g1. rewrite Hpr. simpl.
    now rewrite parse_numeric_whole.
Qed.

(** ** Grouped aggregator *)

Lemma Qc_ltb_false (x y : Qc) : Qc_ltb x y = false <-> (y <= x)%Q.
Proof.
  unfold Qc_ltb. rewrite negb_false_iff. apply Qle_bool_iff.
Qed.

Lemma float_ltb_irrefl (a : pyfloat) : float_ltb a a = false.
Proof. destruct a; simpl; auto using Qc_ltb_irrefl. Qed.

Lemma float_ltb_asym (a b : pyfloat) :
  float_ltb a b = true -> float_ltb b a = false.
Proof.
  destruct a as [| | |x], b as [| | |y]; simpl; try congruence.
  intros H. apply Qc_ltb_false. apply Qlt_le_weak, Qnot_le_lt.
  intros Hle. apply Qle_bool_iff in Hle.
  unfold Qc_ltb in H. rewrite Hle in H. discriminate H.
Qed.

(** [x <= acc] and [acc <= v] give [x <= v], on values that are not nan. *)
Lemma float_le_trans (v acc x : pyfloat) :
  acc <> NaN ->
  float_ltb v acc = false -> float_ltb acc x = false -> float_ltb v x = false.
Proof.
  destruct v as [| | |a], acc as [| | |b], x as [| | |c]; simpl;
    try congruence.
  intros _ H1 H2. apply Qc_ltb_false. apply Qc_ltb_false in H1, H2.
  eapply Qle_trans; eassumption.
Qed.

Lemma nanmax_nan (l : list pyfloat) :
  nanmax l = NaN <-> forall v, v ∈ l -> v = NaN.
Proof.
  induction l as [|v l IH]; simpl.
  - split; [intros _ x Hx; inversion Hx | reflexivity].
  - split.
    + intros H x Hx.
      destruct v as [| | |q]; destruct (nanmax l) as [| | |q'] eqn:E;
        try discriminate H;
        try (apply elem_of_cons in Hx as [->|Hx];
             [reflexivity | now apply IH]);
        unfold float_max in H; destruct (float_ltb _ _); discriminate H.
    + intros H. rewrite (H v) by left.
      apply IH. intros x Hx. apply H. now right.
Qed.

(** When a value is not nan, [nanmax] is one of the values, is not nan, and
    no value that is not nan is above it. *)
Lemma nanmax_max (l : list pyfloat) :
  nanmax l <> NaN ->
  nanmax l ∈ l
  /\ forall v, v ∈ l -> v <> NaN -> float_ltb (nanmax l) v = false.
Proof.
  induction l as [|v l IH]; simpl; [congruence|].
  destruct (nanmax l) as [| | |q'] eqn:E.
  - (* nothing but nan after v *)
    intros Hv. assert (Hres : match v with NaN => NaN | _ => v end = v)
      by (destruct v; reflexivity).
    assert (Hm : match v, NaN with NaN, _ => NaN | _, NaN => v | _, _ => float_max v NaN end = v)
      by (destruct v; reflexivity).
    rewrite Hm in *. split; [left|].
    intros x Hx Hn. apply elem_of_cons in Hx as [->|Hx];
      [apply float_ltb_irrefl|].
    exfalso. apply Hn. now apply (proj1 (nanmax_nan l) E).
  - destruct IH as [Hin Hmax]; [discriminate|].
    destruct v as [| | |q]; intros _; simpl;
      (split; [first [now right | left; fail] |]);
      intros x Hx Hn; apply elem_of_cons in Hx as [->|Hx];
      try congruence; try (now apply Hmax); reflexivity.
  - destruct IH as [Hin Hmax]; [discriminate|].
    destruct v as [| | |q]; intros _.
    + split; [now right|]. intros x Hx Hn.
      apply elem_of_cons in Hx as [->|Hx]; [congruence | now apply Hmax].
    + split; [left|]. intros x Hx Hn. destruct x; reflexivity || congruence.
    + split; [now right|]. intros x Hx Hn.
      apply elem_of_cons in Hx as [->|Hx]; [reflexivity | now apply Hmax].
    + change (float_max (Fin q) NInf) with (Fin q).
      split; [left|]. intros x Hx Hn.
      apply elem_of_cons in Hx as [->|Hx]; [apply float_ltb_irrefl|].
      apply (float_le_trans _ NInf); [discriminate | reflexivity | now apply Hmax].
  - destruct IH as [Hin Hmax]; [discriminate|].
    destruct v as [| | |q]; intros _.
    + split; [now right|]. intros x Hx Hn.
      apply elem_of_cons in Hx as [->|Hx]; [congruence | now apply Hmax].
    + split; [left|]. intros x Hx Hn. destruct x; reflexivity || congruence.
    + change (float_max NInf (Fin q')) with (Fin q').
      split; [now right|]. intros x Hx Hn.
      apply elem_of_cons in Hx as [->|Hx]; [reflexivity | now apply Hmax].
    + unfold float_max. destruct (float_ltb (Fin q) (Fin q')) eqn:Elt.
      * split; [now right|]. intros x Hx Hn.
        apply elem_of_cons in Hx as [->|Hx];
          [now apply float_ltb_asym | now apply Hmax].
      * split; [left|]. intros x Hx Hn.
        apply elem_of_cons in Hx as [->|Hx]; [apply float_ltb_irrefl|].
        apply (float_le_trans _ (Fin q')); [discriminate | exact Elt |].
        now apply Hmax.
Qed.

Lemma group_values_map (k : list pyval) (gk : gmap string pyval -> option (list pyval))
  (uv : gmap string pyval -> pyfloat) (rows : list (gmap string pyval)) :
  group_values k (map gk rows) (map uv rows)
  = map uv (List.filter (fun r => bool_decide (gk r = Some k)) rows).
Proof.
  unfold group_values. induction rows as [|r rows IH]; simpl; [reflexivity|].
  destruct (bool_decide (gk r = Some k)); simpl; now rewrite IH.
Qed.

Lemma elem_of_group (k : list pyval) (gk : gmap string pyval -> option (list pyval))
  (uv : gmap string pyval -> pyfloat) (rows : list (gmap string pyval))
  (v : pyfloat) :
  v ∈ map uv (List.filter (fun r => bool_decide (gk r = Some k)) rows)
  <-> exists r, r ∈ rows /\ gk r = Some k /\ uv r = v.
Proof.
  split.
  - intros H. apply list_elem_of_In, in_map_iff in H as (r & Hv & Hr).
    apply filter_In in Hr as [Hr Hk].
    apply bool_decide_eq_true in Hk. exists r.
    split; [now apply list_elem_of_In | auto].
  - intros (r & Hr & Hk & Hv). apply list_elem_of_In, in_map_iff.
    exists r. split; [exact Hv|].
    apply filter_In. split; [now apply list_elem_of_In|].
    now apply bool_decide_eq_true.
Qed.

(** C8.  On a table with the three key columns and a numeric
    'upper_storey' the aggregator returns, and there is one value per
    group, the maximum of 'upper_storey' over the rows of the group that
    have one, missing when none has, that is written in 'max_storey' in
    every row of the group.  Rows with a missing 'upper_storey' are in
    their group; a group of one row gets the 'upper_storey' of that row; a
    row with a missing key cell is in no group and gets a missing value.
    The other columns are not touched. *)
Theorem add_max_storey_groups (df : DataFrame)
  (Hcols : forall c, c ∈ storey_columns -> c ∈ df_columns df)
  (Hnum : Forall numeric_upper (df_rows df)) :
  exists (df1 : DataFrame) (group_max : list pyval -> pyfloat),
    add_max_storey df = Ok df1
    /\ length (df_rows df1) = length (df_rows df)
    /\ (forall k, group_max_spec (df_rows df) k (group_max k))
    /\ (forall i r, df_rows df !! i = Some r ->
          exists r1,
            df_rows df1 !! i = Some r1
            /\ r1 !! "max_storey"
               = Some (VFloat (match group_key storey_by r with
                               | Some k => group_max k
                               | None => NaN
                               end))
            /\ forall c, c <> "max_storey" -> r1 !! c = r !! c)
    /\ (forall r k, r ∈ df_rows df -> group_key storey_by r = Some k ->
          (forall r', r' ∈ df_rows df -> group_key storey_by r' = Some k ->
                      r' = r) ->
          group_max k = upper_value r).
Proof.
  set (rows := df_rows df) in *.
  pose (gk := group_key storey_by).
  pose (M := fun k => nanmax (map upper_value
                 (List.filter (fun r => bool_decide (gk r = Some k)) rows))).
  assert (Hspec : forall k, group_max_spec rows k (M k)).
  { intros k. split.
    - intros Hm. destruct (nanmax_max _ Hm) as [Hin Hmax]. split.
      + now apply elem_of_group in Hin.
      + intros r' Hr' Hk Hv. apply Hmax; [|exact Hv].
        apply elem_of_group. eauto.
    - intros Hm r' Hr' Hk. apply (proj1 (nanmax_nan _) Hm).
      apply elem_of_group. eauto. }
  exists (set_column df "max_storey"
            (map (fun r => VFloat (match gk r with
                                   | Some k => M k
                                   | None => NaN
                                   end)) rows)), M.
  split.
  { unfold add_max_storey, storey_by. cbn [map_result].
    rewrite !get_column_in by (apply Hcols; by_compute).
    cbn [bind]. fold rows. rewrite map_result_map.
    rewrite (map_result_ok_map _ upper_value); cycle 1.
    { intros r Hr. rewrite Forall_forall in Hnum.
      destruct (Hnum r Hr) as [f Hf]. unfold upper_value. now rewrite Hf. }
    cbn [bind]. do 2 f_equal. unfold transform_max.
    rewrite !map_map. apply map_ext. intros r. fold storey_by. fold gk.
    destruct (gk r) as [k|]; [|reflexivity].
    f_equal. unfold M. now rewrite <- group_values_map. }
  rewrite (set_column_rows_map df _ id _ rows) by (now rewrite map_id).
  split; [apply length_map|]. split; [exact Hspec|]. split.
  - intros i r Hi. rewrite lookup_map, Hi. eexists. split; [reflexivity|].
    split; [apply lookup_insert_eq|].
    intros c Hc. now rewrite lookup_insert_ne.
  - intros r k Hr Hk Hone. destruct (Hspec k) as [H1 H2].
    destruct (decide (M k = NaN)) as [E|E].
    + rewrite E. symmetry. now apply (H2 E).
    + destruct (proj1 (H1 E)) as (r' & Hr' & Hk' & Hv).
      rewrite <- Hv. f_equal. now apply Hone.
Qed.

Lemma add_max_storey_groups_witness :
  exists df1, add_max_storey aggregator_frame = Ok df1
              /\ length (df_rows df1) = length (df_rows aggregator_frame).
Proof.
  destruct (add_max_storey_groups aggregator_frame) as (df1 & M & H1 & H2 & _).
  - intros c Hc. unfold storey_columns in Hc.
    repeat (apply elem_of_cons in Hc as [->|Hc]; [by_compute|]).
    inversion Hc.
  - repeat constructor; eexists; vm_compute; reflexivity.
  - exists df1. split; assumption.
Defined.

(** The example of the specification: the three rows of the first building
    get 9; the building of one row gets its own 3; the building whose only
    'upper_storey' is missing gets a missing value. *)
Lemma add_max_storey_example :
  (let! d := add_max_storey aggregator_frame in get_column d "max_storey")
  = Ok [VFloat (float_of_int64 9); VFloat (float_of_int64 9);
        VFloat (float_of_int64 9); VFloat (float_of_int64 3); VFloat NaN].
Proof. by_compute. Qed.

(** ** Row-wise deriver *)

(** C9.  On a row whose 'remaining_lease' is a float the deriver returns
    max(99 - remaining_lease, 0): the int 0 when 99 - remaining_lease is
    below zero, and 99 - remaining_lease otherwise.  It raises nothing and
    what it returns is never negative. *)
Theorem calculate_age_of_flat_clamped
  (row : gmap string pyval) (remaining_lease : pyfloat)
  (Hrow : row !! "remaining_lease" = Some (VFloat remaining_lease)) :
  let age := float_sub (float_of_int64 99) remaining_lease in
  calculate_age_of_flat row
  = Ok (if float_ltb age (float_of_int64 0) then VInt 0 else VFloat age)
  /\ (forall v, calculate_age_of_flat row = Ok v -> is_negative v = false)
  /\ is_ok (calculate_age_of_flat row) = true.
Proof.
  intros age.
  assert (E : calculate_age_of_flat row
              = Ok (if float_ltb age (float_of_int64 0)
                    then VInt 0 else VFloat age)).
  { unfold calculate_age_of_flat, row_get. rewrite Hrow. cbn [bind py_sub].
    assert (H99 : float_of_int 99 = Ok (float_of_int64 99))
      by (vm_compute; reflexivity).
    rewrite H99. cbn [bind]. reflexivity. }
  split; [exact E|]. rewrite E. split; [|reflexivity].
  intros v [= <-].
  destruct (float_ltb age (float_of_int64 0)) eqn:Hlt; [reflexivity|].
  exact Hlt.
Qed.

(** A remaining lease of 105 gives the age 0, not -6. *)
Lemma calculate_age_of_flat_clamped_witness :
  calculate_age_of_flat {[ "remaining_lease" := VFloat (float_of_int64 105) ]}
  = Ok (VInt 0).
Proof.
  destruct (calculate_age_of_flat_clamped
              {[ "remaining_lease" := VFloat (float_of_int64 105) ]}
              (float_of_int64 105) (lookup_singleton_eq _ _)) as [H _].
  etransitivity; [exact H|]. by_compute.
Defined.

(** A remaining lease of 60.5 gives the age 38.5; a missing one (nan)
    gives nan. *)
Lemma calculate_age_of_flat_examples :
  calculate_age_of_flat {[ "remaining_lease" := VFloat (Fin (tenths 605)) ]}
  = Ok (VFloat (Fin (tenths 385)))
  /\ calculate_age_of_flat {[ "remaining_lease" := VFloat NaN ]}
     = Ok (VFloat NaN).
Proof. split; by_compute. Qed.

(** * Further properties of the functions *)

(** ** Lease standardizer: where the cap applies *)

Lemma round_half_even_le (n k : Z) (d : positive) :
  n <= k * Z.pos d -> round_half_even n d <= k.
Proof.
  intros H. pose proof (round_half_even_nearest n d) as Hn.
  set (r := round_half_even n d) in *. nia.
Qed.

Lemma round_half_even_ge (n k : Z) (d : positive) :
  k * Z.pos d <= n -> k <= round_half_even n d.
Proof.
  intros H. pose proof (round_half_even_nearest n d) as Hn.
  set (r := round_half_even n d) in *. nia.
Qed.

Lemma Qc_ltb_tenths (j k : Z) : Qc_ltb (tenths j) (tenths k) = (j <? k).
Proof.
  unfold Qc_ltb.
  destruct (j <? k) eqn:E.
  - apply Z.ltb_lt in E. apply negb_true_iff.
    destruct (Qle_bool (tenths k) (tenths j)) eqn:E'; [|reflexivity].
    apply Qle_bool_iff in E'.
    change (this (tenths k)) with (Qred (k # 10)) in E'.
    change (this (tenths j)) with (Qred (j # 10)) in E'.
    rewrite !Qred_correct in E'. unfold Qle in E'. simpl in E'. lia.
  - apply Z.ltb_ge in E. apply negb_false_iff, Qle_bool_iff.
    change (this (tenths k)) with (Qred (k # 10)).
    change (this (tenths j)) with (Qred (j # 10)).
    rewrite !Qred_correct. unfold Qle. simpl. lia.
Qed.

(** X1.  A finite float of at most 99 is only rounded: the result is a
    float within 0.05 of it, also when it is negative (nothing is raised to
    0), and a float of 99 or more becomes 99.0. *)
Theorem convert_lease_float_cap (lim : nat) (q : Qc) :
  ((q <= inject_Z 99)%Q ->
     convert_lease lim (VFloat (Fin q)) = Ok (VFloat (Fin (round1_Qc q)))
     /\ (Qabs (q - round1_Qc q) <= 1 # 20)%Q)
  /\ ((inject_Z 99 <= q)%Q ->
        convert_lease lim (VFloat (Fin q)) = Ok (VFloat f99)).
Proof.
  assert (E : cap99 (Fin q)
              = if 990 <? round_half_even (10 * Qnum q) (Qden q)
                then f99 else Fin (round1_Qc q)).
  { rewrite cap99_Fin. unfold round1_Qc at 1. now rewrite Qc_ltb_tenths. }
  cbn [convert_lease]. rewrite E. split.
  - intros H. split; [|apply round1_Qc_nearest].
    rewrite (proj2 (Z.ltb_ge _ _)); [reflexivity|].
    apply round_half_even_le. unfold Qle in H. simpl in H. lia.
  - intros H.
    assert (Hk : 990 <= round_half_even (10 * Qnum q) (Qden q)).
    { apply round_half_even_ge. unfold Qle in H. simpl in H. lia. }
    destruct (990 <? round_half_even (10 * Qnum q) (Qden q)) eqn:E';
      [reflexivity|].
    apply Z.ltb_ge in E'. unfold round1_Qc.
    replace (round_half_even (10 * Qnum q) (Qden q)) with 990 by lia.
    reflexivity.
Qed.

Lemma convert_lease_float_cap_witness :
  convert_lease 4300 (VFloat (Fin (Q2Qc (-17 # 4))))
  = Ok (VFloat (Fin (round1_Qc (Q2Qc (-17 # 4)))))
  /\ convert_lease 4300 (VFloat (Fin (Q2Qc (401 # 4)))) = Ok (VFloat f99).
Proof.
  split.
  - apply (proj1 (convert_lease_float_cap 4300 (Q2Qc (-17 # 4)))).
    vm_compute. discriminate.
  - apply (proj2 (convert_lease_float_cap 4300 (Q2Qc (401 # 4)))).
    vm_compute. discriminate.
Defined.

Lemma round1_int (n : Z) : round1_Qc (Q2Qc (inject_Z n)) = Q2Qc (inject_Z n).
Proof.
  unfold round1_Qc, tenths. apply Q2Qc_eq_iff.
  change (this (Q2Qc (inject_Z n))) with (Qred (inject_Z n)).
  pose proof (Qred_correct (inject_Z n)) as H.
  destruct (Qred (inject_Z n)) as [a b]. unfold Qeq in *. simpl in *.
  replace (10 * a) with ((10 * n) * Z.pos b) by lia.
  rewrite round_half_even_exact. lia.
Qed.

(** X2.  An int that a float can hold is converted without rounding: an
    int of 99 or more gives 99.0 and a smaller one, negative ones included,
    gives the float of the same value. *)
Theorem convert_lease_int (lim : nat) (n : Z)
  (Hn : Z.abs n < float_overflow) :
  convert_lease lim (VInt n)
  = Ok (VFloat (if 99 <=? n then f99 else float_of_int64 n)).
Proof.
  cbn [convert_lease]. unfold float_of_int.
  rewrite (proj2 (Z.ltb_lt _ _) Hn). cbn [bind]. do 2 f_equal.
  rewrite cap99_Fin, round1_int.
  assert (E : Q2Qc (inject_Z n) = tenths (10 * n)).
  { apply Q2Qc_eq_iff. unfold Qeq. simpl. lia. }
  rewrite E at 1. rewrite Qc_ltb_tenths.
  destruct (99 <=? n) eqn:H99.
  - apply Z.leb_le in H99. destruct (990 <? 10 * n) eqn:E'; [reflexivity|].
    apply Z.ltb_ge in E'. assert (n = 99) by lia. subst n.
    unfold f99. f_equal. apply Q2Qc_eq_iff. reflexivity.
  - apply Z.leb_gt in H99. rewrite (proj2 (Z.ltb_ge _ _)) by lia. reflexivity.
Qed.

Lemma convert_lease_int_witness :
  convert_lease 4300 (VInt (-3)) = Ok (VFloat (float_of_int64 (-3))).
Proof.
  exact (convert_lease_int 4300 (-3) ltac:(vm_compute; reflexivity)).
Defined.

(** X3.  The patterns are looked for at the very start of the text: a text
    that is empty or does not begin with a digit (a leading blank, a sign,
    a word) gives [None], whatever follows. *)
Theorem convert_lease_no_leading_digit (lim : nat) (s : string)
  (Hs : digits_end s) :
  convert_lease lim (VStr s) = Ok VNone.
Proof.
  assert (Hspan : span_digits s = (EmptyString, s)).
  { destruct s as [|c s]; [reflexivity|]. simpl in *. now rewrite Hs. }
  assert (Hre : forall p, re_match (RDigits :: p) s = None).
  { intros p. cbn [re_match]. rewrite Hspan. reflexivity. }
  unfold convert_lease, re_full, re_years. now rewrite !Hre.
Qed.

Lemma convert_lease_no_leading_digit_witness :
  convert_lease 4300 (VStr " 10 years") = Ok VNone.
Proof.
  exact (convert_lease_no_leading_digit 4300 " 10 years" eq_refl).
Defined.

(** ** Lease standardizer: the whole column *)

Lemma maybe_convert_objects_lookup (P : pyval -> Prop) (l : list pyval) :
  P (VFloat NaN) -> Forall P l -> Forall P (maybe_convert_objects l).
Proof.
  intros Hnan H. unfold maybe_convert_objects.
  destruct (_ && _); [|exact H].
  induction H as [|v l Hv _ IH]; simpl; constructor; auto.
  destruct (is_none_val v); assumption.
Qed.

Lemma maybe_convert_objects_length (l : list pyval) :
  length (maybe_convert_objects l) = length l.
Proof.
  unfold maybe_convert_objects. destruct (_ && _); [apply length_map|reflexivity].
Qed.

(** X4.  When the standardizer returns, the table has the same columns
    and the same number of rows, only 'remaining_lease' is changed, and
    every value of that column is [None] or a float that is not above 99.0
    and that a further rounding and capping leaves as it is. *)
Theorem standardize_remaining_lease_column
  (lim : nat) (df df1 : DataFrame)
  (H : standardize_remaining_lease lim df = Ok df1) :
  df_columns df1 = df_columns df
  /\ length (df_rows df1) = length (df_rows df)
  /\ forall i r, df_rows df !! i = Some r ->
       exists r1 v,
         df_rows df1 !! i = Some r1
         /\ r1 !! "remaining_lease" = Some v
         /\ (v = VNone
             \/ exists f, v = VFloat f /\ float_ltb f99 f = false
                          /\ cap99 f = f)
         /\ forall c, c <> "remaining_lease" -> r1 !! c = r !! c.
Proof.
  unfold standardize_remaining_lease in H.
  apply bind_ok_inv in H as (col & Hcol & H).
  apply bind_ok_inv in H as (out & Hout & H). injection H as <-.
  apply get_column_ok_inv in Hcol as [Hin ->].
  unfold series_apply in Hout.
  apply bind_ok_inv in Hout as (out0 & H0 & Hout). injection Hout as <-.
  pose proof (map_result_length _ _ _ H0) as Hlen. rewrite length_map in Hlen.
  set (P := fun v => v = VNone
                     \/ exists f, v = VFloat f /\ float_ltb f99 f = false
                                  /\ cap99 f = f).
  assert (Hall : Forall P (maybe_convert_objects out0)).
  { apply maybe_convert_objects_lookup.
    - right. exists NaN. auto.
    - apply Forall_forall. intros v Hv.
      apply list_elem_of_lookup in Hv as [i Hi].
      destruct (lookup_lt_is_Some_2 (map (fun r => cell r "remaining_lease")
                                       (df_rows df)) i) as [x Hx].
      { rewrite <- (map_result_length _ _ _ H0). eapply lookup_lt_Some, Hi. }
      destruct (map_result_lookup _ _ _ _ _ H0 Hx) as (b & Hb & Hb').
      rewrite Hi in Hb'. injection Hb' as <-.
      destruct (convert_lease_ok_inv _ _ _ Hb) as [->|[f ->]]; [now left|].
      right. exists (cap99 f). auto using cap99_le, cap99_idem. }
  split.
  { simpl. now rewrite decide_True. }
  split.
  { simpl. rewrite length_zip_with_l_eq; [reflexivity|].
    now rewrite maybe_convert_objects_length. }
  intros i r Hr.
  destruct (lookup_lt_is_Some_2 (maybe_convert_objects out0) i) as [v Hv].
  { rewrite maybe_convert_objects_length, Hlen. eapply lookup_lt_Some, Hr. }
  exists (<["remaining_lease" := v]> r), v.
  split; [simpl; now rewrite lookup_zip_with, Hr, Hv|].
  split; [apply lookup_insert_eq|]. split.
  - rewrite Forall_forall in Hall. apply Hall.
    apply list_elem_of_lookup. eauto.
  - intros c Hc. now rewrite lookup_insert_ne.
Qed.

Lemma standardize_remaining_lease_column_witness :
  df_columns mixed_lease_out = df_columns mixed_lease_frame.
Proof.
  exact (proj1 (standardize_remaining_lease_column 4300 mixed_lease_frame
                  mixed_lease_out ltac:(by_compute))).
Defined.

(** ** Text normalizer: applying it again *)

Lemma upper_char_space (c : ascii) : is_space (upper_char c) = is_space c.
Proof. destruct c as [[] [] [] [] [] [] [] []]; vm_compute; reflexivity. Qed.

Lemma upper_char_idem (c : ascii) : upper_char (upper_char c) = upper_char c.
Proof.
  unfold upper_char at 1. now rewrite upper_char_not_lower.
Qed.

Lemma py_upper_idem (s : string) : py_upper (py_upper s) = py_upper s.
Proof.
  induction s as [|c s IH]; simpl; [reflexivity|].
  now rewrite upper_char_idem, IH.
Qed.

Lemma py_lstrip_upper (s : string) : py_lstrip (py_upper s) = py_upper (py_lstrip s).
Proof.
  induction s as [|c s IH]; simpl; [reflexivity|].
  rewrite upper_char_space. destruct (is_space c); [exact IH | reflexivity].
Qed.

Lemma py_rstrip_upper (s : string) : py_rstrip (py_upper s) = py_upper (py_rstrip s).
Proof.
  induction s as [|c s IH]; simpl; [reflexivity|].
  rewrite IH, upper_char_space.
  destruct (py_rstrip s); simpl; [destruct (is_space c)|]; reflexivity.
Qed.

Lemma py_lstrip_fixed (s : string) :
  not_space (first_char s) -> py_lstrip s = s.
Proof. destruct s as [|c s]; simpl; [auto|]. now intros ->. Qed.

Lemma py_rstrip_fixed (s : string) :
  not_space (last_char s) -> py_rstrip s = s.
Proof.
  induction s as [|c s IH]; simpl; [auto|].
  destruct s as [|d s].
  - simpl. now intros ->.
  - intros H. now rewrite (IH H).
Qed.

Lemma py_strip_idem (s : string) : py_strip (py_strip s) = py_strip s.
Proof.
  destruct (py_strip_spec s) as (l & r & _ & _ & _ & Hf & Hl).
  unfold py_strip at 1. rewrite (py_lstrip_fixed _ Hf). now apply py_rstrip_fixed.
Qed.

(** Trimming and upper-casing commute, and doing both twice is doing both
    once. *)
Lemma py_strip_upper (s : string) : py_strip (py_upper s) = py_upper (py_strip s).
Proof. unfold py_strip. now rewrite py_lstrip_upper, py_rstrip_upper. Qed.

Lemma str_cell_strip_upper_idem (v : pyval) :
  str_cell py_upper (str_cell py_strip
    (str_cell py_upper (str_cell py_strip v)))
  = str_cell py_upper (str_cell py_strip v).
Proof.
  rewrite !str_cell_strip_upper.
  destruct v as [| |[| | |q]|n|s|d]; try reflexivity.
  now rewrite py_strip_upper, py_strip_idem, py_upper_idem.
Qed.

(** X5.  The normalizer is idempotent: on the table that it returns it
    returns the same table. *)
Theorem clean_flat_model_twice (df df1 : DataFrame)
  (H : clean_flat_model df = Ok df1) :
  clean_flat_model df1 = Ok df1.
Proof.
  unfold clean_flat_model in H.
  apply bind_ok_inv in H as (col & Hcol & H).
  apply bind_ok_inv in H as (stripped & Hs & H).
  apply bind_ok_inv in H as (upper & Hu & H). injection H as <-.
  apply get_column_ok_inv in Hcol as [Hin ->].
  assert (Hacc : str_accessor_ok
                   (map (fun r => cell r "flat_model") (df_rows df)) = true).
  { unfold str_method in Hs. destruct (str_accessor_ok _); [reflexivity|discriminate]. }
  apply str_method_ok_inv in Hs as ->. apply str_method_ok_inv in Hu as ->.
  set (out := map (str_cell py_upper)
                (map (str_cell py_strip)
                   (map (fun r => cell r "flat_model") (df_rows df)))).
  assert (Hlen : length out = length (df_rows df))
    by (unfold out; now rewrite !length_map).
  unfold clean_flat_model. rewrite get_set_column by exact Hlen. cbn [bind].
  unfold str_method.
  assert (Hacc1 : str_accessor_ok out = true)
    by (unfold out; now do 2 apply str_accessor_ok_map).
  rewrite Hacc1. cbn [bind].
  rewrite str_accessor_ok_map by exact Hacc1. cbn [bind].
  assert (Hfix : map (str_cell py_upper) (map (str_cell py_strip) out) = out).
  { unfold out. rewrite !map_map. apply map_ext. intros r.
    apply str_cell_strip_upper_idem. }
  rewrite Hfix. now rewrite set_column_twice.
Qed.

Lemma clean_flat_model_twice_witness :
  exists df1, clean_flat_model flat_model_frame = Ok df1
              /\ clean_flat_model df1 = Ok df1.
Proof.
  destruct (clean_flat_model flat_model_frame) as [df1|e] eqn:E.
  - exists df1. split; [reflexivity|].
    exact (clean_flat_model_twice flat_model_frame df1 E).
  - exfalso. vm_compute in E. discriminate E.
Defined.

(** X6.  A 'flat_model' column without any text that holds a value (a
    column of numbers, say) is refused: the normalizer raises
    [AttributeError] and returns no table. *)
Theorem clean_flat_model_no_text (df : DataFrame)
  (Hcol : "flat_model" ∈ df_columns df)
  (Hnostr : forall r, r ∈ df_rows df -> is_str_val (cell r "flat_model") = false)
  (Hval : exists r, r ∈ df_rows df /\ isna (cell r "flat_model") = false) :
  clean_flat_model df = Raise AttributeError.
Proof.
  unfold clean_flat_model. rewrite get_column_in by assumption. cbn [bind].
  unfold str_method.
  assert (E : str_accessor_ok
                (map (fun r => cell r "flat_model") (df_rows df)) = false).
  { unfold str_accessor_ok. apply orb_false_iff. split.
    - destruct Hval as (r & Hr & Hna).
      apply not_true_iff_false. intros Hall.
      rewrite forallb_forall in Hall.
      rewrite (Hall (cell r "flat_model")) in Hna; [discriminate|].
      apply (in_map (fun r => cell r "flat_model")). now apply list_elem_of_In.
    - apply existsb_map_false. exact Hnostr. }
  now rewrite E.
Qed.

Lemma clean_flat_model_no_text_witness :
  clean_flat_model (frame ["flat_model"] [[("flat_model", VInt 5)]])
  = Raise AttributeError.
Proof.
  apply clean_flat_model_no_text.
  - by_compute.
  - intros r Hr. apply list_elem_of_In in Hr as [<-|[]]. reflexivity.
  - eexists. split; [apply list_elem_of_In; left; reflexivity|]. reflexivity.
Defined.

(** ** Deduplicator: the count and a second run *)

Lemma duplicated_from_length (seen keys : list (list pyval)) :
  length (duplicated_from seen keys) = length keys.
Proof.
  revert seen. induction keys as [|k keys IH]; intros seen; simpl; auto.
Qed.

Lemma select_negb_length {A : Type} (mask : list bool) (l : list A) :
  length mask = length l ->
  (length (select (map negb mask) l) + count_true mask = length l)%nat.
Proof.
  revert l. induction mask as [|b mask IH]; intros [|a l] H; simpl in *;
    try discriminate; [reflexivity|].
  injection H as H. specialize (IH l H). unfold count_true in *.
  destruct b; simpl; lia.
Qed.

(** Keys that are pairwise different and not seen before are all kept. *)
Lemma duplicated_from_nodup (seen keys : list (list pyval)) :
  NoDup keys -> (forall k, k ∈ keys -> k ∉ seen) ->
  duplicated_from seen keys = map (fun _ => false) keys.
Proof.
  revert seen. induction keys as [|k keys IH]; intros seen Hnd Hdis; simpl;
    [reflexivity|].
  apply NoDup_cons in Hnd as [Hk Hnd].
  rewrite bool_decide_eq_false_2 by (apply Hdis; left). f_equal.
  apply IH; [exact Hnd|].
  intros k' Hk' Hs. apply elem_of_cons in Hs as [->|Hs]; [contradiction|].
  apply (Hdis k'); [now right | exact Hs].
Qed.

Lemma select_all {A B : Type} (l : list A) (keys : list B) :
  length keys = length l ->
  select (map negb (map (fun _ => false) keys)) l = l.
Proof.
  revert l. induction keys as [|k keys IH]; intros [|a l] H; simpl in *;
    try discriminate; [reflexivity|].
  f_equal. apply IH. lia.
Qed.

(** X7.  The number of duplicates that is printed is the number of rows
    that are removed.  A second run on the returned table finds no
    duplicate and returns that table again; a table without duplicates
    is returned as it is. *)
Theorem clean_dataset_twice (df : DataFrame) (dataset_name : string) :
  let df1 := snd (clean_dataset df dataset_name) in
  (length (df_rows df1) + count_true (duplicated df) = length (df_rows df))%nat
  /\ nth 1 (fst (clean_dataset df dataset_name)) (PStr "")
     = PStr (dataset_name +:+ ": Number of duplicates: "
             +:+ pretty (length (df_rows df) - length (df_rows df1))%nat)
  /\ count_true (duplicated df1) = O
  /\ snd (clean_dataset df1 dataset_name) = df1
  /\ (NoDup (map (row_key (df_columns df)) (df_rows df)) -> df1 = df).
Proof.
  intros df1. unfold df1. cbn [clean_dataset snd fst nth].
  assert (Hlen : (length (select (map negb (duplicated df)) (df_rows df))
                  + count_true (duplicated df) = length (df_rows df))%nat).
  { apply select_negb_length. unfold duplicated.
    now rewrite duplicated_from_length, length_map. }
  assert (Hfix : forall d, NoDup (map (row_key (df_columns d)) (df_rows d)) ->
                   duplicated d = map (fun _ => false)
                                    (map (row_key (df_columns d)) (df_rows d))).
  { intros d Hnd. unfold duplicated. apply duplicated_from_nodup; [exact Hnd|].
    intros k _ Hk. inversion Hk. }
  assert (Hnd1 : NoDup (map (row_key (df_columns (drop_duplicates df)))
                          (df_rows (drop_duplicates df)))).
  { cbn [drop_duplicates df_columns df_rows]. rewrite select_map.
    exact (proj1 (duplicated_from_kept [] _)). }
  split; [exact Hlen|]. split.
  { cbn [drop_duplicates df_rows].
    replace (length (df_rows df)
             - length (select (map negb (duplicated df)) (df_rows df)))%nat
      with (count_true (duplicated df)) by lia.
    reflexivity. }
  split.
  { rewrite (Hfix _ Hnd1). unfold count_true.
    generalize (map (row_key (df_columns (drop_duplicates df)))
                  (df_rows (drop_duplicates df))).
    intros l. induction l; simpl; auto. }
  split.
  { unfold drop_duplicates at 1. rewrite (Hfix _ Hnd1).
    rewrite select_all by (now rewrite length_map).
    destruct (drop_duplicates df); reflexivity. }
  intros Hnd. unfold drop_duplicates. rewrite (Hfix _ Hnd).
  rewrite select_all by (now rewrite length_map). destruct df; reflexivity.
Qed.

Lemma clean_dataset_twice_witness :
  snd (clean_dataset (snd (clean_dataset duplicate_frame "resale")) "resale")
  = snd (clean_dataset duplicate_frame "resale").
Proof.
  exact (proj1 (proj2 (proj2 (proj2
           (clean_dataset_twice duplicate_frame "resale"))))).
Defined.

(** ** Date normalizer: applying it again *)

Lemma to_datetime_cell_fixed (other : string -> option date) (v w : pyval) :
  to_datetime_cell other v = Ok w -> to_datetime_cell other w = Ok w.
Proof.
  destruct v as [| |[| | |q]|n|s|d]; simpl; try discriminate;
    try (intros [= <-]; reflexivity).
  destruct (_ || _); [intros [= <-]; reflexivity|].
  destruct (strptime_Ym other s); [intros [= <-]; reflexivity | discriminate].
Qed.

(** X8.  On the table that it returns, the date normalizer returns the same
    table: a column of dates is left as it is. *)
Theorem convert_month_to_datetime_twice
  (other : string -> option date) (df df1 : DataFrame) (column_name : string)
  (H : convert_month_to_datetime other df column_name = Ok df1) :
  convert_month_to_datetime other df1 column_name = Ok df1.
Proof.
  unfold convert_month_to_datetime in H.
  apply bind_ok_inv in H as (col & Hcol & H).
  apply bind_ok_inv in H as (out & Hout & H). injection H as <-.
  apply get_column_ok_inv in Hcol as [Hin ->].
  pose proof (map_result_length _ _ _ Hout) as Hlen. rewrite length_map in Hlen.
  unfold convert_month_to_datetime.
  rewrite get_set_column by exact Hlen. cbn [bind].
  rewrite map_result_id.
  - cbn [bind]. now rewrite set_column_twice.
  - apply Forall_forall. intros w Hw.
    apply list_elem_of_lookup in Hw as [i Hi].
    destruct (lookup_lt_is_Some_2 (map (fun r => cell r column_name)
                                     (df_rows df)) i) as [x Hx].
    { rewrite <- (map_result_length _ _ _ Hout). eapply lookup_lt_Some, Hi. }
    destruct (map_result_lookup _ _ _ _ _ Hout Hx) as (b & Hb & Hb').
    rewrite Hi in Hb'. injection Hb' as <-.
    eapply to_datetime_cell_fixed, Hb.
Qed.

Lemma convert_month_to_datetime_twice_witness :
  exists df1,
    convert_month_to_datetime strict_format empty_month_frame "month" = Ok df1
    /\ convert_month_to_datetime strict_format df1 "month" = Ok df1.
Proof.
  destruct (convert_month_to_datetime strict_format empty_month_frame "month")
    as [df1|e] eqn:E.
  - exists df1. split; [reflexivity|].
    exact (convert_month_to_datetime_twice _ _ _ _ E).
  - exfalso. vm_compute in E. discriminate E.
Defined.

(** ** Lease imputer: what it needs and what it leaves *)

(** X9.  The imputer needs a datetime column: when a value of 'month' is
    not a date (a text that was not converted, a number), the [.dt]
    accessor is refused and the call raises [AttributeError]. *)
Theorem impute_remaining_lease_needs_dates (df : DataFrame)
  (Hcol : "month" ∈ df_columns df)
  (Hbad : exists r, r ∈ df_rows df
                    /\ is_datetime_val (cell r "month") = false) :
  impute_remaining_lease df = Raise AttributeError.
Proof.
  unfold impute_remaining_lease. rewrite get_column_in by assumption.
  cbn [bind]. unfold dt_field.
  assert (E : forallb is_datetime_val
                (map (fun r => cell r "month") (df_rows df)) = false).
  { destruct Hbad as (r & Hr & Hd). apply not_true_iff_false. intros Hall.
    rewrite forallb_forall in Hall.
    rewrite (Hall (cell r "month")) in Hd; [discriminate|].
    apply (in_map (fun r => cell r "month")). now apply list_elem_of_In. }
  now rewrite E.
Qed.

Lemma impute_remaining_lease_needs_dates_witness :
  impute_remaining_lease text_month_frame = Raise AttributeError.
Proof.
  apply impute_remaining_lease_needs_dates.
  - by_compute.
  - eexists. split; [apply list_elem_of_In; left; reflexivity|]. reflexivity.
Defined.

(** ** Lease imputer: the table that is returned *)

Lemma in_set_column_iff (df : DataFrame) (c c' : string) (vals : list pyval) :
  c' ∈ df_columns (set_column df c vals) <-> c' = c \/ c' ∈ df_columns df.
Proof.
  split; [|apply in_set_column]. simpl.
  destruct (decide (c ∈ df_columns df)); [auto|].
  intros H. apply elem_of_app in H as [H|H]; [auto|].
  apply list_elem_of_singleton in H. auto.
Qed.

Lemma in_drop_column_iff (df df1 : DataFrame) (c c' : string) :
  drop_column df c = Ok df1 ->
  (c' ∈ df_columns df1 <-> c' <> c /\ c' ∈ df_columns df).
Proof.
  unfold drop_column. destruct (decide (c ∈ df_columns df)); [|discriminate].
  intros [= <-]. simpl. split.
  - intros H. apply list_elem_of_In, filter_In in H as [H1 H2].
    apply negb_true_iff, String.eqb_neq in H2.
    split; [congruence | now apply list_elem_of_In].
  - intros [H1 H2]. apply list_elem_of_In, filter_In.
    split; [now apply list_elem_of_In|].
    apply negb_true_iff, String.eqb_neq. congruence.
Qed.

(** The row that the imputer returns for a row. *)
Lemma imputed_row_lookup (r : gmap string pyval) (a b v : pyval) (c : string) :
  delete "current_month"
    (delete "current_year"
       (<["remaining_lease" := v]>
          (<["current_month" := b]> (<["current_year" := a]> r)))) !! c
  = if decide (c = "current_month") then None
    else if decide (c = "current_year") then None
    else if decide (c = "remaining_lease") then Some v
    else r !! c.
Proof.
  destruct (decide (c = "current_month")) as [->|H1];
    [apply lookup_delete_eq|].
  rewrite lookup_delete_ne by congruence.
  destruct (decide (c = "current_year")) as [->|H2];
    [apply lookup_delete_eq|].
  rewrite lookup_delete_ne by congruence.
  destruct (decide (c = "remaining_lease")) as [->|H3];
    [apply lookup_insert_eq|].
  now rewrite !lookup_insert_ne by congruence.
Qed.

(** On a table of dates and commencement years the imputer returns the
    rows with the imputed lease written, the two temporary columns
    removed. *)
Lemma impute_remaining_lease_typed (df : DataFrame)
  (Hmonth : "month" ∈ df_columns df)
  (Hlcd : "lease_commence_date" ∈ df_columns df)
  (Hrows : Forall imputer_row (df_rows df)) :
  exists df1,
    impute_remaining_lease df = Ok df1
    /\ df_rows df1
       = map (fun r =>
                delete "current_month"
                  (delete "current_year"
                     (<["remaining_lease" :=
                          VFloat (Fin (lease_formula (row_year r) (row_month r)
                                         (row_commence r)))]>
                        (<["current_month" := VInt (row_month r)]>
                           (<["current_year" := VInt (row_year r)]> r)))))
           (df_rows df)
    /\ (forall c, c ∈ df_columns df1 <->
                  c <> "current_month" /\ c <> "current_year"
                  /\ (c = "remaining_lease" \/ c ∈ df_columns df)).
Proof.
  set (rows := df_rows df) in *.
  pose (ry := row_year). pose (rm := row_month). pose (rc := row_commence).
  assert (Hrow : forall r, r ∈ rows ->
            (exists d, cell r "month" = VDate d)
            /\ cell r "lease_commence_date" = VInt (rc r)
            /\ 1677 <= ry r <= 2262 /\ 1 <= rm r <= 12
            /\ Z.abs (rc r) <= 2 ^ 62).
  { intros r Hr. rewrite Forall_forall in Hrows.
    destruct (Hrows r Hr) as (y & m & d & c & Hd & Hy & Hm & Hc & Hb).
    unfold ry, rm, rc, row_year, row_month, row_commence.
    rewrite Hd, Hc. simpl. eauto 10. }
  unfold impute_remaining_lease.
  (* current_year *)
  rewrite (get_column_in df "month") by assumption. cbn [bind]. fold rows.
  rewrite dt_field_dates; cycle 1.
  { apply Forall_forall. intros v Hv. apply list_elem_of_In, in_map_iff in Hv as (r & <- & Hr).
    apply list_elem_of_In in Hr. now destruct (Hrow r Hr) as (? & _). }
  cbn [bind]. rewrite map_map.
  match goal with |- context [set_column df "current_year" (map ?g rows)] =>
    set (gy := g); set (df_a := set_column df "current_year" (map gy rows)) end.
  assert (Ra : df_rows df_a = map (fun r => <["current_year" := gy r]> r) rows).
  { unfold df_a. rewrite (set_column_rows_map df _ id gy rows); [reflexivity|].
    now rewrite map_id. }
  (* current_month *)
  rewrite (get_column_in df_a "month") by (apply in_set_column; auto).
  cbn [bind]. rewrite Ra, map_map.
  rewrite dt_field_dates; cycle 1.
  { apply Forall_forall. intros v Hv. apply list_elem_of_In, in_map_iff in Hv as (r & <- & Hr).
    apply list_elem_of_In in Hr. rewrite cell_insert_ne by discriminate.
    now destruct (Hrow r Hr) as (? & _). }
  cbn [bind]. rewrite map_map.
  match goal with |- context [set_column df_a "current_month" (map ?g rows)] =>
    set (gm := g); set (df_b := set_column df_a "current_month" (map gm rows)) end.
  assert (Rb : df_rows df_b
               = map (fun r => <["current_month" := gm r]>
                                 (<["current_year" := gy r]> r)) rows).
  { unfold df_b. now rewrite (set_column_rows_map df_a _ _ gm rows Ra). }
  (* years_elapsed *)
  rewrite (get_column_in df_b "current_year")
    by (apply in_set_column; right; apply in_set_column; auto).
  cbn [bind].
  rewrite (get_column_in df_b "lease_commence_date")
    by (apply in_set_column; right; apply in_set_column; auto).
  cbn [bind]. rewrite Rb, !map_map.
  unfold series_sub. rewrite zip_map_map, map_result_map.
  rewrite (map_result_ok_map _ (fun r => VInt (ry r - rc r))); cycle 1.
  { intros r Hr. destruct (Hrow r Hr) as ([d Hd] & Hc & _).
    rewrite cell_insert_ne by discriminate. rewrite cell_insert_eq.
    rewrite !cell_insert_ne by discriminate. rewrite Hc.
    unfold gy, ry, row_year. rewrite Hd. reflexivity. }
  cbn [bind].
  (* months_fraction *)
  rewrite (get_column_in df_b "current_month") by (apply in_set_column; auto).
  cbn [bind]. rewrite Rb, map_map, map_result_map.
  rewrite (map_result_ok_map _ (fun r => VFloat (Fin (Q2Qc (rm r # 12))))); cycle 1.
  { intros r Hr. destruct (Hrow r Hr) as ([d Hd] & _ & _ & Hm & _).
    rewrite cell_insert_eq. unfold gm. rewrite cell_insert_ne by discriminate.
    unfold rm, row_month in *. rewrite Hd in *. now apply py_truediv_month. }
  cbn [bind].
  (* 99 - years_elapsed - months_fraction, rounded *)
  rewrite map_result_map.
  rewrite (map_result_ok_map _ (fun r => VInt (99 - (ry r - rc r))))
    by reflexivity.
  cbn [bind]. rewrite zip_map_map, map_result_map.
  rewrite (map_result_ok_map _
             (fun r => VFloat (Fin (Q2Qc (inject_Z (99 - (ry r - rc r)))
                                    - Q2Qc (rm r # 12))%Qc))); cycle 1.
  { intros r Hr. destruct (Hrow r Hr) as (_ & _ & Hy & Hm & Hc).
    assert (H62 : 2 ^ 62 = 4611686018427387904) by reflexivity.
    assert (H63 : 2 ^ 63 = 9223372036854775808) by reflexivity.
    apply py_sub_int_month; [lia | assumption]. }
  cbn [bind]. rewrite map_result_map.
  rewrite (map_result_ok_map _
             (fun r => VFloat (Fin (lease_formula (ry r) (rm r) (rc r)))))
    by reflexivity.
  cbn [bind].
  match goal with |- context [set_column df_b "remaining_lease" (map ?g rows)] =>
    set (gl := g); set (df_c := set_column df_b "remaining_lease" (map gl rows)) end.
  assert (Rc : df_rows df_c
               = map (fun r => <["remaining_lease" := gl r]>
                                 (<["current_month" := gm r]>
                                    (<["current_year" := gy r]> r))) rows).
  { unfold df_c. now rewrite (set_column_rows_map df_b _ _ gl rows Rb). }
  (* the temporary columns are dropped *)
  destruct (drop_column_in df_c "current_year") as (df_d & Hd & Rd).
  { apply in_set_column. right. apply in_set_column. right.
    apply in_set_column. auto. }
  rewrite Hd. cbn [bind].
  destruct (drop_column_in df_d "current_month") as (df_e & He & Re).
  { apply (in_drop_column _ _ _ _ Hd); [discriminate|].
    apply in_set_column. right. apply in_set_column. auto. }
  exists df_e. split; [exact He|]. split.
  - rewrite Re, Rd, Rc, !map_map. apply map_ext_in. intros r Hr.
    apply list_elem_of_In in Hr. destruct (Hrow r Hr) as ([d Hdate] & _).
    unfold gl, gm, gy, rm, ry, rc, row_month, row_year.
    rewrite cell_insert_ne by discriminate. rewrite Hdate. reflexivity.
  - intros c. rewrite (in_drop_column_iff _ _ _ c He).
    rewrite (in_drop_column_iff _ _ _ c Hd).
    unfold df_c, df_b, df_a. rewrite !in_set_column_iff. tauto.
Qed.

(** X10.  The two temporary columns are not left behind, and a column of
    the input that is called 'current_year' or 'current_month' is lost
    with them: in the returned table no row has a value under these two
    names and they are not among the columns.  'remaining_lease' is among
    the columns, written or overwritten; every other column and every
    other cell is as it was. *)
Theorem impute_remaining_lease_columns (df : DataFrame)
  (Hmonth : "month" ∈ df_columns df)
  (Hlcd : "lease_commence_date" ∈ df_columns df)
  (Hrows : Forall imputer_row (df_rows df)) :
  exists df1,
    impute_remaining_lease df = Ok df1
    /\ ("current_year" ∉ df_columns df1)
    /\ ("current_month" ∉ df_columns df1)
    /\ "remaining_lease" ∈ df_columns df1
    /\ (forall c, c <> "current_year" -> c <> "current_month" ->
          c <> "remaining_lease" ->
          (c ∈ df_columns df1 <-> c ∈ df_columns df))
    /\ forall i r, df_rows df !! i = Some r ->
         exists r1,
           df_rows df1 !! i = Some r1
           /\ r1 !! "current_year" = None
           /\ r1 !! "current_month" = None
           /\ forall c, c <> "current_year" -> c <> "current_month" ->
                c <> "remaining_lease" -> r1 !! c = r !! c.
Proof.
  destruct (impute_remaining_lease_typed df Hmonth Hlcd Hrows)
    as (df1 & H & Hr & Hc).
  exists df1. split; [exact H|].
  split; [rewrite Hc; tauto|]. split; [rewrite Hc; tauto|].
  split; [rewrite Hc; repeat split; auto; discriminate|].
  split; [intros c H1 H2 H3; rewrite Hc; tauto|].
  intros i r Hi. rewrite Hr, lookup_map, Hi. eexists. split; [reflexivity|].
  split; [now rewrite imputed_row_lookup|].
  split; [now rewrite imputed_row_lookup|].
  intros c H1 H2 H3. rewrite imputed_row_lookup.
  now rewrite !decide_False by assumption.
Qed.

Lemma impute_remaining_lease_columns_witness :
  exists df1,
    impute_remaining_lease dated_frame = Ok df1
    /\ ("current_year" ∉ df_columns df1).
Proof.
  assert (Hrows : Forall imputer_row (df_rows dated_frame)).
  { repeat constructor.
    - exists 2020, 3, 1, 1990. repeat split; try lia; try by_compute.
    - exists 2020, 12, 1, 1900. repeat split; try lia; try by_compute. }
  destruct (impute_remaining_lease_columns dated_frame
              ltac:(by_compute) ltac:(by_compute) Hrows)
    as (df1 & H1 & H2 & _).
  exists df1. split; assumption.
Defined.

(** ** Date normalizer, then lease imputer *)

Lemma parse_YYYY_MM_not_null (s : string) (y m : Z) :
  parse_YYYY_MM s = Some (y, m) ->
  bool_decide (s = EmptyString) || bool_decide (s ∈ nat_strings) = false.
Proof.
  intros Hp. apply orb_false_iff. split; apply bool_decide_eq_false.
  - intros ->. discriminate Hp.
  - intros Hin. unfold nat_strings in Hin.
    repeat (apply elem_of_cons in Hin as [->|Hin]; [discriminate Hp|]).
    inversion Hin.
Qed.

(** X11.  The two compose: on a table whose 'month' values are [YYYY-MM]
    texts and whose commencement years are ints, normalizing the dates and
    then imputing returns, and every row gets round(99 - (Y - commence)
    - M / 12, 1) for the year [Y] and the month [M] written in its text. *)
Theorem convert_then_impute
  (other : string -> option date) (df : DataFrame)
  (Hmonth : "month" ∈ df_columns df)
  (Hlcd : "lease_commence_date" ∈ df_columns df)
  (Hrows : Forall month_text_row (df_rows df)) :
  exists df1 df2,
    convert_month_to_datetime other df "month" = Ok df1
    /\ impute_remaining_lease df1 = Ok df2
    /\ length (df_rows df2) = length (df_rows df)
    /\ forall i r s y m c,
         df_rows df !! i = Some r ->
         cell r "month" = VStr s -> parse_YYYY_MM s = Some (y, m) ->
         cell r "lease_commence_date" = VInt c ->
         exists r2,
           df_rows df2 !! i = Some r2
           /\ r2 !! "month" = Some (VDate (Date y m 1))
           /\ r2 !! "remaining_lease"
              = Some (VFloat (Fin (lease_formula y m c))).
Proof.
  rewrite Forall_forall in Hrows.
  pose (g := fun r : gmap string pyval =>
               match cell r "month" with
               | VStr s => match parse_YYYY_MM s with
                           | Some (y, m) => VDate (Date y m 1)
                           | None => VNaT
                           end
               | _ => VNaT
               end).
  set (df1 := set_column df "month" (map g (df_rows df))).
  assert (H1 : convert_month_to_datetime other df "month" = Ok df1).
  { unfold convert_month_to_datetime. rewrite get_column_in by assumption.
    cbn [bind]. rewrite map_result_map.
    rewrite (map_result_ok_map _ g); [reflexivity|].
    intros r Hr.
    destruct (Hrows r Hr) as (s & y & m & c & Hs & Hp & Hy & Hm & _).
    unfold g. rewrite Hs, Hp. now apply to_datetime_cell_canonical. }
  assert (R1 : df_rows df1 = map (fun r => <["month" := g r]> r) (df_rows df)).
  { unfold df1. rewrite (set_column_rows_map df _ id g); [reflexivity|].
    now rewrite map_id. }
  assert (Hyear : forall y, timestamp_year y = true -> 1677 <= y <= 2262).
  { intros y Hy. unfold timestamp_year in Hy.
    apply andb_true_iff in Hy as [Ha Hb].
    apply Z.leb_le in Ha, Hb. lia. }
  destruct (impute_remaining_lease_typed df1) as (df2 & H2 & R2 & _).
  { apply in_set_column. auto. }
  { apply in_set_column. auto. }
  { rewrite R1. apply Forall_forall. intros r1 Hr1.
    apply list_elem_of_In, in_map_iff in Hr1 as (r & <- & Hr).
    apply list_elem_of_In in Hr.
    destruct (Hrows r Hr) as (s & y & m & c & Hs & Hp & Hy & Hm & Hc & Hb).
    exists y, m, 1, c. rewrite cell_insert_eq.
    rewrite cell_insert_ne by discriminate.
    unfold g. rewrite Hs, Hp. auto. }
  exists df1, df2. split; [exact H1|]. split; [exact H2|].
  rewrite R2, R1, map_map. split; [apply length_map|].
  intros i r s y m c Hi Hs Hp Hc. rewrite lookup_map, Hi.
  eexists. split; [reflexivity|].
  rewrite !imputed_row_lookup. cbn [decide].
  rewrite !decide_False by discriminate. rewrite decide_True by reflexivity.
  split; [rewrite lookup_insert_eq; unfold g; now rewrite Hs, Hp|].
  unfold row_year, row_month, row_commence.
  rewrite cell_insert_eq. rewrite cell_insert_ne by discriminate.
  unfold g. rewrite Hs, Hp, Hc. reflexivity.
Qed.

Lemma convert_then_impute_witness :
  exists df1 df2,
    convert_month_to_datetime strict_format text_month_frame "month" = Ok df1
    /\ impute_remaining_lease df1 = Ok df2
    /\ length (df_rows df2) = length (df_rows text_month_frame).
Proof.
  assert (Hrows : Forall month_text_row (df_rows text_month_frame)).
  { repeat constructor.
    - exists "2020-03", 2020, 3, 1990.
      repeat split; try lia; try by_compute; reflexivity.
    - exists "2020-12", 2020, 12, 1900.
      repeat split; try lia; try by_compute; reflexivity. }
  destruct (convert_then_impute strict_format text_month_frame
              ltac:(by_compute) ltac:(by_compute) Hrows)
    as (df1 & df2 & H1 & H2 & H3 & _).
  exists df1, df2. auto.
Defined.

(** ** Grouped aggregator: the value against the row, and a second run *)

Lemma add_max_storey_result (df : DataFrame)
  (Hcols : forall c, c ∈ storey_columns -> c ∈ df_columns df)
  (Hnum : Forall numeric_upper (df_rows df)) :
  add_max_storey df
  = Ok (set_column df "max_storey"
          (map (max_storey_cell (df_rows df)) (df_rows df))).
Proof.
  unfold add_max_storey, storey_by. cbn [map_result].
  rewrite !get_column_in by (apply Hcols; by_compute).
  cbn [bind]. rewrite map_result_map.
  rewrite (map_result_ok_map _ upper_value); cycle 1.
  { intros r Hr. rewrite Forall_forall in Hnum.
    destruct (Hnum r Hr) as [f Hf]. unfold upper_value. now rewrite Hf. }
  cbn [bind]. do 2 f_equal. unfold transform_max.
  rewrite !map_map. apply map_ext. intros r. unfold max_storey_cell.
  fold storey_by. destruct (group_key storey_by r) as [k|]; [|reflexivity].
  f_equal. unfold group_max. now rewrite <- group_values_map.
Qed.

(** X12.  A row with a complete key and an 'upper_storey' gets a
    'max_storey' that is present and not below its own 'upper_storey'. *)
Theorem add_max_storey_not_below (df : DataFrame)
  (Hcols : forall c, c ∈ storey_columns -> c ∈ df_columns df)
  (Hnum : Forall numeric_upper (df_rows df)) :
  exists df1,
    add_max_storey df = Ok df1
    /\ forall i r k,
         df_rows df !! i = Some r ->
         group_key storey_by r = Some k -> upper_value r <> NaN ->
         exists r1 m,
           df_rows df1 !! i = Some r1
           /\ r1 !! "max_storey" = Some (VFloat m)
           /\ m <> NaN /\ float_ltb m (upper_value r) = false.
Proof.
  eexists. split; [now apply add_max_storey_result|].
  intros i r k Hi Hk Hu.
  rewrite (set_column_rows_map df _ id _ (df_rows df)) by (now rewrite map_id).
  rewrite lookup_map, Hi.
  exists (<["max_storey" := max_storey_cell (df_rows df) r]> r),
         (group_max (df_rows df) k).
  split; [reflexivity|].
  split; [rewrite lookup_insert_eq; unfold max_storey_cell; now rewrite Hk|].
  assert (Hin : upper_value r
                ∈ map upper_value
                    (List.filter
                       (fun r => bool_decide (group_key storey_by r = Some k))
                       (df_rows df))).
  { apply elem_of_group. exists r.
    split; [apply list_elem_of_lookup; eauto | auto]. }
  assert (Hm : group_max (df_rows df) k <> NaN).
  { intros E. apply Hu. exact (proj1 (nanmax_nan _) E _ Hin). }
  split; [exact Hm|].
  exact (proj2 (nanmax_max _ Hm) _ Hin Hu).
Qed.

Lemma aggregator_frame_numeric : Forall numeric_upper (df_rows aggregator_frame).
Proof. repeat constructor; eexists; vm_compute; reflexivity. Qed.

Lemma aggregator_frame_columns :
  forall c, c ∈ storey_columns -> c ∈ df_columns aggregator_frame.
Proof.
  intros c Hc. unfold storey_columns in Hc.
  repeat (apply elem_of_cons in Hc as [->|Hc]; [by_compute|]).
  inversion Hc.
Qed.

Lemma add_max_storey_not_below_witness :
  exists df1, add_max_storey aggregator_frame = Ok df1.
Proof.
  destruct (add_max_storey_not_below aggregator_frame
              aggregator_frame_columns aggregator_frame_numeric)
    as (df1 & H & _).
  exists df1. exact H.
Defined.

Lemma set_column_again (df : DataFrame) (c : string) (vals : list pyval) :
  set_column (set_column df c vals) c vals = set_column df c vals.
Proof.
  unfold set_column. simpl. rewrite zip_insert_twice. f_equal.
  destruct (decide (c ∈ df_columns df)) as [Hin|Hin].
  - now rewrite decide_True.
  - rewrite decide_True; [reflexivity|].
    apply elem_of_app. right. now apply list_elem_of_singleton.
Qed.

Lemma filter_map_comm {A B : Type} (p : B -> bool) (f : A -> B) (l : list A) :
  List.filter p (map f l) = map f (List.filter (fun a => p (f a)) l).
Proof.
  induction l as [|a l IH]; simpl; [reflexivity|].
  destruct (p (f a)); simpl; now rewrite IH.
Qed.

(** X13.  The aggregator is idempotent: on the table that it returns it
    returns the same table ('max_storey' takes no part in the grouping and
    is written with the same values). *)
Theorem add_max_storey_twice (df : DataFrame)
  (Hcols : forall c, c ∈ storey_columns -> c ∈ df_columns df)
  (Hnum : Forall numeric_upper (df_rows df)) :
  exists df1, add_max_storey df = Ok df1 /\ add_max_storey df1 = Ok df1.
Proof.
  set (ins := fun r : gmap string pyval =>
                <["max_storey" := max_storey_cell (df_rows df) r]> r).
  set (df1 := set_column df "max_storey"
                (map (max_storey_cell (df_rows df)) (df_rows df))).
  assert (R1 : df_rows df1 = map ins (df_rows df)).
  { unfold df1. rewrite (set_column_rows_map df _ id _ (df_rows df));
      [reflexivity | now rewrite map_id]. }
  assert (Hcell : forall r c, c <> "max_storey" -> cell (ins r) c = cell r c).
  { intros r c Hc. unfold ins. apply cell_insert_ne. congruence. }
  assert (Hkey : forall r, group_key storey_by (ins r) = group_key storey_by r).
  { intros r. unfold group_key, storey_by. cbn [map].
    now rewrite !Hcell by discriminate. }
  assert (Hup : forall r, upper_value (ins r) = upper_value r).
  { intros r. unfold upper_value. now rewrite Hcell by discriminate. }
  exists df1. split; [now apply add_max_storey_result|].
  rewrite add_max_storey_result.
  - f_equal. rewrite R1, map_map.
    replace (map (fun r => max_storey_cell (map ins (df_rows df)) (ins r))
               (df_rows df))
      with (map (max_storey_cell (df_rows df)) (df_rows df)).
    + apply set_column_again.
    + apply map_ext. intros r. unfold max_storey_cell. rewrite Hkey.
      destruct (group_key storey_by r) as [k|]; [|reflexivity].
      f_equal. unfold group_max. rewrite filter_map_comm, map_map.
      rewrite (List.filter_ext
                 (fun a => bool_decide (group_key storey_by (ins a) = Some k))
                 (fun a => bool_decide (group_key storey_by a = Some k)))
        by (intros r'; now rewrite Hkey).
      f_equal. apply map_ext. intros r'. now rewrite Hup.
  - intros c Hc. apply in_set_column. right. now apply Hcols.
  - rewrite R1. apply Forall_forall. intros r1 Hr1.
    apply list_elem_of_In, in_map_iff in Hr1 as (r & <- & Hr).
    rewrite Forall_forall in Hnum. apply list_elem_of_In in Hr.
    destruct (Hnum r Hr) as [f Hf]. exists f.
    now rewrite Hcell by discriminate.
Qed.

Lemma add_max_storey_twice_witness :
  exists df1, add_max_storey aggregator_frame = Ok df1
              /\ add_max_storey df1 = Ok df1.
Proof.
  exact (add_max_storey_twice aggregator_frame
           aggregator_frame_columns aggregator_frame_numeric).
Defined.

(** ** Row-wise deriver: other values *)

Lemma Qc_ltb_int (a b : Z) :
  Qc_ltb (Q2Qc (inject_Z a)) (Q2Qc (inject_Z b)) = (a <? b).
Proof.
  unfold Qc_ltb.
  change (this (Q2Qc (inject_Z a))) with (Qred (inject_Z a)).
  change (this (Q2Qc (inject_Z b))) with (Qred (inject_Z b)).
  destruct (a <? b) eqn:E.
  - apply Z.ltb_lt in E. apply negb_true_iff.
    destruct (Qle_bool _ _) eqn:E'; [|reflexivity].
    apply Qle_bool_iff in E'. rewrite !Qred_correct in E'.
    unfold Qle in E'. simpl in E'. lia.
  - apply Z.ltb_ge in E. apply negb_false_iff, Qle_bool_iff.
    rewrite !Qred_correct. unfold Qle. simpl. lia.
Qed.

(** X14.  A row without 'remaining_lease' raises [KeyError]; a
    'remaining_lease' that is [None] or a text raises [TypeError] (the
    subtraction is refused); an int gives the int max(99 - n, 0). *)
Theorem calculate_age_of_flat_other_values (row : gmap string pyval) :
  (row !! "remaining_lease" = None ->
     calculate_age_of_flat row = Raise KeyError)
  /\ (row !! "remaining_lease" = Some VNone ->
        calculate_age_of_flat row = Raise TypeError)
  /\ (forall s, row !! "remaining_lease" = Some (VStr s) ->
        calculate_age_of_flat row = Raise TypeError)
  /\ (forall n, row !! "remaining_lease" = Some (VInt n) ->
        calculate_age_of_flat row = Ok (VInt (Z.max (99 - n) 0))).
Proof.
  unfold calculate_age_of_flat, row_get.
  split; [now intros ->|]. split; [now intros ->|].
  split; [now intros s ->|].
  intros n ->. cbn [bind py_sub py_max number_value float_of_int64 float_ltb].
  rewrite Qc_ltb_int. f_equal.
  destruct (99 - n <? 0) eqn:E.
  - apply Z.ltb_lt in E. f_equal. lia.
  - apply Z.ltb_ge in E. f_equal. lia.
Qed.

Lemma calculate_age_of_flat_other_values_witness :
  calculate_age_of_flat {[ "remaining_lease" := VInt 105 ]} = Ok (VInt 0)
  /\ calculate_age_of_flat {[ "lease" := VInt 105 ]} = Raise KeyError.
Proof.
  split.
  - exact (proj2 (proj2 (proj2 (calculate_age_of_flat_other_values _)))
             105 (lookup_singleton_eq _ _)).
  - apply (proj1 (calculate_age_of_flat_other_values _)).
    apply lookup_singleton_ne. discriminate.
Defined.

(** ** Lease standardizer, then row-wise deriver *)

Lemma float_sub_99_nonneg (f : pyfloat) :
  f <> NaN -> float_ltb f99 f = false ->
  float_ltb (float_sub (float_of_int64 99) f) (float_of_int64 0) = false.
Proof.
  destruct f as [| | |q]; intros Hn Hle; try congruence; try discriminate.
  - reflexivity.
  - cbn [float_sub float_neg float_of_int64 float_add]. unfold float_of_exact.
    set (d := (Q2Qc (inject_Z 99) + - q)%Qc).
    assert (Hd : (0 <= d)%Q).
    { cbn [float_ltb f99] in Hle. apply Qc_ltb_false in Hle.
      change (this (tenths 990)) with (Qred (990 # 10)) in Hle.
      rewrite Qred_correct in Hle.
      unfold d, Qcplus, Qcopp. simpl. rewrite !Qred_correct.
      destruct q as [[a b] Hc]. unfold Qle in *. simpl in *. lia. }
    assert (Hlt : Qc_ltb d (Q2Qc (inject_Z 0)) = false).
    { apply Qc_ltb_false. exact Hd. }
    destruct (Qc_overflows d).
    + change (Qc_ltb d 0%Qc) with (Qc_ltb d (Q2Qc (inject_Z 0))).
      now rewrite Hlt.
    + exact Hlt.
Qed.

(** X15.  On a lease that the standardizer returned the clamp is not
    needed: for every value that the standardizer turns into a float that
    is not nan, the age of a row with that lease is the float
    99 - remaining_lease itself, and it is not negative. *)
Theorem standardized_lease_age
  (lim : nat) (v : pyval) (f : pyfloat) (row : gmap string pyval)
  (Hstd : convert_lease lim v = Ok (VFloat f))
  (Hnan : f <> NaN)
  (Hrow : row !! "remaining_lease" = Some (VFloat f)) :
  calculate_age_of_flat row = Ok (VFloat (float_sub (float_of_int64 99) f))
  /\ is_negative (VFloat (float_sub (float_of_int64 99) f)) = false.
Proof.
  assert (Hle : float_ltb f99 f = false).
  { destruct (convert_lease_ok_inv _ _ _ Hstd) as [?|[g Hg]]; [discriminate|].
    injection Hg as ->. apply cap99_le. }
  pose proof (float_sub_99_nonneg f Hnan Hle) as Hpos.
  split; [|exact Hpos].
  unfold calculate_age_of_flat, row_get. rewrite Hrow. cbn [bind py_sub].
  assert (H99 : float_of_int 99 = Ok (float_of_int64 99))
    by (vm_compute; reflexivity).
  rewrite H99. cbn [bind py_max number_value]. now rewrite Hpos.
Qed.

Lemma standardized_lease_age_witness :
  calculate_age_of_flat {[ "remaining_lease" := VFloat f99 ]}
  = Ok (VFloat (float_sub (float_of_int64 99) f99)).
Proof.
  refine (proj1 (standardized_lease_age 4300 (VInt 150) f99 _ _ _ _)).
  - by_compute.
  - discriminate.
  - apply lookup_singleton_eq.
Defined.

(** ** Column splitter (range): a well-formed table *)

Lemma split_storey_range_well_formed_witness :
  exists df1,
    split_storey_range (fun _ => None) storey_frame = Ok df1
    /\ length (df_rows df1) = length (df_rows storey_frame).
Proof.
  destruct (split_storey_range_well_formed (fun _ => None) storey_frame)
    as (df1 & H1 & H2 & _).
  - by_compute.
  - discriminate.
  - repeat constructor.
    + exists "04", "06". split; [by_compute|].
      split; split; try reflexivity; simpl; lia.
    + exists "10", "12". split; [by_compute|].
      split; split; try reflexivity; simpl; lia.
  - exists df1. auto.
Defined.

(** ** Column splitter (range): what is left alone *)

Lemma numeric_column_as_map (l : list pyval) :
  exists k : pyval -> pyval, numeric_column l = map k l.
Proof.
  unfold numeric_column. destruct (existsb is_float_val l).
  - eexists. reflexivity.
  - exists id. now rewrite map_id.
Qed.

Lemma set_column_columns_in (df : DataFrame) (c : string) (vals : list pyval) :
  c ∈ df_columns df -> df_columns (set_column df c vals) = df_columns df.
Proof. intros H. simpl. now rewrite decide_True. Qed.

(** X17.  Whenever the range splitter returns, the table had a
    'storey_range' column, and the result has the same number of rows, the
    columns of the given table in their order followed by those of
    'lower_storey' and 'upper_storey' that it did not have, a value in both
    of these columns in every row, and every other cell as it was. *)
Theorem split_storey_range_frame
  (other : string -> option pyval) (df df1 : DataFrame)
  (Hok : split_storey_range other df = Ok df1) :
  "storey_range" ∈ df_columns df
  /\ (exists new, df_columns df1 = df_columns df ++ new)
  /\ (forall c, c ∈ df_columns df1
                <-> c ∈ df_columns df
                    \/ c = "lower_storey" \/ c = "upper_storey")
  /\ length (df_rows df1) = length (df_rows df)
  /\ forall i r, df_rows df !! i = Some r ->
       exists r1,
         df_rows df1 !! i = Some r1
         /\ is_Some (r1 !! "lower_storey")
         /\ is_Some (r1 !! "upper_storey")
         /\ forall c, c <> "lower_storey" -> c <> "upper_storey" ->
                      r1 !! c = r !! c.
Proof.
  unfold split_storey_range in Hok.
  apply bind_ok_inv in Hok as (col & Hcol & Hok).
  apply get_column_ok_inv in Hcol as [Hin ->].
  apply bind_ok_inv in Hok as (parts & Hparts & Hok).
  unfold str_split in Hparts.
  destruct (str_accessor_ok _); [|discriminate]. injection Hparts as <-.
  destruct (negb _); [discriminate|].
  set (rows := df_rows df) in *.
  unfold frame_column in Hok. rewrite !map_map in Hok.
  match type of Hok with context [set_column df "lower_storey" (map ?g rows)] =>
    set (g0 := g) in Hok;
    set (df_a := set_column df "lower_storey" (map g0 rows)) in Hok end.
  assert (Ra : df_rows df_a = map (fun r => <["lower_storey" := g0 r]> r) rows).
  { unfold df_a. rewrite (set_column_rows_map df _ id g0 rows); [reflexivity|].
    now rewrite map_id. }
  match type of Hok with context [set_column df_a "upper_storey" (map ?g rows)] =>
    set (g1 := g) in Hok;
    set (df_b := set_column df_a "upper_storey" (map g1 rows)) in Hok end.
  assert (Rb : df_rows df_b
               = map (fun r => <["upper_storey" := g1 r]>
                                 (<["lower_storey" := g0 r]> r)) rows).
  { unfold df_b. now rewrite (set_column_rows_map df_a _ _ g1 rows Ra). }
  rewrite (get_column_in df_b "lower_storey") in Hok
    by (apply in_set_column; right; apply in_set_column; auto).
  cbn [bind] in Hok. unfold to_numeric in Hok.
  rewrite Rb, !map_map in Hok.
  match type of Hok with context [numeric_column (map ?g rows)] =>
    destruct (numeric_column_as_map (map g rows)) as [k2 Hk2] end.
  rewrite Hk2, map_map in Hok.
  match type of Hok with context [set_column df_b "lower_storey" (map ?g rows)] =>
    set (g2 := g) in Hok;
    set (df_c := set_column df_b "lower_storey" (map g2 rows)) in Hok end.
  assert (Rc : df_rows df_c
               = map (fun r => <["lower_storey" := g2 r]>
                                 (<["upper_storey" := g1 r]>
                                    (<["lower_storey" := g0 r]> r))) rows).
  { unfold df_c. now rewrite (set_column_rows_map df_b _ _ g2 rows Rb). }
  rewrite (get_column_in df_c "upper_storey") in Hok
    by (apply in_set_column; right; apply in_set_column; auto).
  cbn [bind] in Hok. rewrite Rc, !map_map in Hok.
  match type of Hok with context [numeric_column (map ?g rows)] =>
    destruct (numeric_column_as_map (map g rows)) as [k3 Hk3] end.
  rewrite Hk3, map_map in Hok.
  match type of Hok with context [set_column df_c "upper_storey" (map ?g rows)] =>
    set (g3 := g) in Hok;
    set (df_d := set_column df_c "upper_storey" (map g3 rows)) in Hok end.
  assert (Rd : df_rows df_d
               = map (fun r => <["upper_storey" := g3 r]>
                                 (<["lower_storey" := g2 r]>
                                    (<["upper_storey" := g1 r]>
                                       (<["lower_storey" := g0 r]> r)))) rows).
  { unfold df_d. now rewrite (set_column_rows_map df_c _ _ g3 rows Rc). }
  injection Hok as <-.
  assert (Ca : "lower_storey" ∈ df_columns df_a)
    by (apply in_set_column; auto).
  assert (Cb : "upper_storey" ∈ df_columns df_b)
    by (apply in_set_column; auto).
  assert (Cb' : "lower_storey" ∈ df_columns df_b)
    by (apply in_set_column; auto).
  assert (Cc : "upper_storey" ∈ df_columns df_c)
    by (apply in_set_column; auto).
  assert (Hcols : df_columns df_d = df_columns df_b).
  { unfold df_d. rewrite set_column_columns_in by exact Cc.
    unfold df_c. now rewrite set_column_columns_in. }
  split; [exact Hin|]. split.
  { rewrite Hcols. unfold df_b, df_a. cbn [set_column df_columns].
    repeat destruct (decide _); eexists;
      rewrite <- ?app_assoc; try reflexivity.
    symmetry. apply app_nil_r. }
  split.
  { intros c. rewrite Hcols. unfold df_b, df_a.
    rewrite !in_set_column_iff. tauto. }
  split; [rewrite Rd; apply length_map|].
  intros i r Hi. rewrite Rd, lookup_map. fold rows in Hi. rewrite Hi.
  eexists. split; [reflexivity|]. split.
  { rewrite lookup_insert_ne by discriminate. rewrite lookup_insert_eq. eauto. }
  split; [rewrite lookup_insert_eq; eauto|].
  intros c Hl Hu.
  rewrite !lookup_insert_ne by congruence. reflexivity.
Qed.

Lemma split_storey_range_frame_witness :
  exists df1,
    split_storey_range (fun _ => None) mixed_storey_frame = Ok df1
    /\ length (df_rows df1) = length (df_rows mixed_storey_frame).
Proof.
  destruct (split_storey_range (fun _ => None) mixed_storey_frame)
    as [df1|e] eqn:E.
  - exists df1. split; [reflexivity|].
    exact (proj1 (proj2 (proj2 (proj2
             (split_storey_range_frame _ _ _ E))))).
  - exfalso. vm_compute in E. discriminate E.
Defined.

(** ** Column splitter (type) *)

Lemma filter_sublist {A : Type} (p : A -> bool) (l : list A) :
  sublist (List.filter p l) l.
Proof.
  induction l as [|a l IH]; simpl; [constructor|].
  destruct (p a); [now apply sublist_skip | now apply sublist_cons].
Qed.

Lemma in_select_dtypes (dtypes : string -> dtype) (include : list dtype)
  (df : DataFrame) (c : string) :
  c ∈ df_columns (select_dtypes dtypes include df)
  <-> c ∈ df_columns df /\ dtypes c ∈ include.
Proof.
  cbn [select_dtypes df_columns]. split.
  - intros H. apply list_elem_of_In, filter_In in H as [H1 H2].
    apply bool_decide_eq_true in H2. split; [now apply list_elem_of_In|exact H2].
  - intros [H1 H2]. apply list_elem_of_In, filter_In.
    split; [now apply list_elem_of_In|now apply bool_decide_eq_true].
Qed.

Lemma select_dtypes_lookup (dtypes : string -> dtype) (include : list dtype)
  (df : DataFrame) (i : nat) (r : gmap string pyval) :
  df_rows df !! i = Some r ->
  exists r1,
    df_rows (select_dtypes dtypes include df) !! i = Some r1
    /\ forall c,
         r1 !! c
         = if decide (c ∈ df_columns (select_dtypes dtypes include df))
           then r !! c else None.
Proof.
  intros Hi. simpl. rewrite lookup_map, Hi. eexists. split; [reflexivity|].
  intros c. destruct (decide _) as [Hin|Hin].
  - destruct (r !! c) as [v|] eqn:E.
    + now apply map_lookup_filter_Some.
    + apply map_lookup_filter_None. left. exact E.
  - apply map_lookup_filter_None. right. intros v _. exact Hin.
Qed.

(** X18.  The two tables returned by the type splitter share no column:
    the first holds the columns of type object and the second the numeric
    and datetime columns, each in the order of the given table and with
    the cells they had; a column of any other type is in neither.  Both
    have all the rows. *)
Theorem split_categorical_numerical_partition
  (dtypes : string -> dtype) (df : DataFrame) :
  let categorical := fst (split_categorical_numerical dtypes df) in
  let numerical := snd (split_categorical_numerical dtypes df) in
  (forall c, c ∈ df_columns categorical
             <-> c ∈ df_columns df /\ dtypes c = DObject)
  /\ (forall c, c ∈ df_columns numerical
                <-> c ∈ df_columns df
                    /\ (dtypes c = DNumber \/ dtypes c = DDatetime))
  /\ (forall c, c ∈ df_columns categorical -> c ∉ df_columns numerical)
  /\ (forall c, dtypes c = DOther ->
        (c ∉ df_columns categorical) /\ (c ∉ df_columns numerical))
  /\ sublist (df_columns categorical) (df_columns df)
  /\ sublist (df_columns numerical) (df_columns df)
  /\ forall i r, df_rows df !! i = Some r ->
       exists rc rn,
         df_rows categorical !! i = Some rc
         /\ df_rows numerical !! i = Some rn
         /\ forall c,
              rc !! c = (if decide (c ∈ df_columns categorical)
                         then r !! c else None)
              /\ rn !! c = (if decide (c ∈ df_columns numerical)
                            then r !! c else None).
Proof.
  intros categorical numerical. unfold categorical, numerical.
  cbn [split_categorical_numerical fst snd].
  assert (Hc : forall c, c ∈ df_columns (select_dtypes dtypes [DObject] df)
                         <-> c ∈ df_columns df /\ dtypes c = DObject).
  { intros c. rewrite in_select_dtypes, list_elem_of_singleton. reflexivity. }
  assert (Hn : forall c,
             c ∈ df_columns (select_dtypes dtypes [DNumber; DDatetime] df)
             <-> c ∈ df_columns df
                 /\ (dtypes c = DNumber \/ dtypes c = DDatetime)).
  { intros c. rewrite in_select_dtypes, elem_of_cons, list_elem_of_singleton.
    reflexivity. }
  split; [exact Hc|]. split; [exact Hn|].
  split.
  { intros c H1 H2. apply Hc in H1 as [_ H1]. apply Hn in H2 as [_ [H2|H2]];
      congruence. }
  split.
  { intros c Ho. split; intros H.
    - apply Hc in H as [_ H]. congruence.
    - apply Hn in H as [_ [H|H]]; congruence. }
  split; [apply filter_sublist|]. split; [apply filter_sublist|].
  intros i r Hi.
  destruct (select_dtypes_lookup dtypes [DObject] df i r Hi) as (rc & Hrc & Hc').
  destruct (select_dtypes_lookup dtypes [DNumber; DDatetime] df i r Hi)
    as (rn & Hrn & Hn').
  exists rc, rn. auto.
Qed.

Lemma split_categorical_numerical_partition_witness :
  df_columns (fst (split_categorical_numerical typed_frame_dtypes typed_frame))
  = ["town"]
  /\ ("town" ∉ df_columns
                 (snd (split_categorical_numerical typed_frame_dtypes
                         typed_frame))).
Proof.
  split; [reflexivity|].
  apply (proj1 (proj2 (proj2 (split_categorical_numerical_partition
                                typed_frame_dtypes typed_frame)))).
  by_compute.
Defined.

(** On the example the boolean-like column 'sold' is in neither table. *)
Lemma split_categorical_numerical_example :
  df_columns (fst (split_categorical_numerical typed_frame_dtypes typed_frame))
  = ["town"]
  /\ df_columns (snd (split_categorical_numerical typed_frame_dtypes typed_frame))
     = ["resale_price"; "month"].
Proof. split; reflexivity. Qed.

(** ** Date normalizer: what it returns and what it raises *)

Lemma map_result_raise_inv {A B : Type} (f : A -> result B) (l : list A)
  (e : exn) :
  map_result f l = Raise e -> exists a, a ∈ l /\ f a = Raise e.
Proof.
  induction l as [|x l IH]; simpl; [discriminate|].
  destruct (f x) as [b|e'] eqn:E; cbn [bind].
  - destruct (map_result f l) as [bs|e'']; cbn [bind]; [discriminate|].
    intros [= <-]. destruct IH as (a & Ha & Hf); [reflexivity|].
    exists a. split; [now right | exact Hf].
  - intros [= <-]. exists x. split; [left | exact E].
Qed.




(** X20.  The date normalizer raises nothing but [KeyError], when the
    table has no such column, and [ValueError], when some row of the column
    holds an int, a float that is not nan, or a text that is neither empty
    nor read as null and that the format does not match. *)
Theorem convert_month_to_datetime_raises
  (other : string -> option date) (df : DataFrame) (column_name : string)
  (e : exn)
  (Hraise : convert_month_to_datetime other df column_name = Raise e) :
  (e = KeyError /\ column_name ∉ df_columns df)
  \/ (e = ValueError
      /\ column_name ∈ df_columns df
      /\ exists r, r ∈ df_rows df
           /\ match cell r column_name with
              | VInt _ => True
              | VFloat f => f <> NaN
              | VStr s => s <> EmptyString
                          /\ (s ∉ nat_strings)
                          /\ strptime_Ym other s = None
              | _ => False
              end).
Proof.
  unfold convert_month_to_datetime, get_column in Hraise.
  destruct (decide (column_name ∈ df_columns df)) as [Hin|Hin];
    cbn [bind] in Hraise.
  - right.
    destruct (map_result _ _) as [out|e'] eqn:E; cbn [bind] in Hraise;
      [discriminate|].
    injection Hraise as ->.
    apply map_result_raise_inv in E as (v & Hv & Hf).
    apply list_elem_of_In, in_map_iff in Hv as (r & <- & Hr).
    apply list_elem_of_In in Hr.
    split; [eapply to_datetime_cell_raise, Hf|]. split; [exact Hin|].
    exists r. split; [exact Hr|].
    destruct (cell r column_name) as [| |[| | |q]|n|s|d]; simpl in Hf;
      try discriminate; try exact I.
    destruct (bool_decide (s = EmptyString) || bool_decide (s ∈ nat_strings))
      eqn:Eb; [discriminate|].
    apply orb_false_iff in Eb as [E1 E2].
    apply bool_decide_eq_false in E1, E2.
    destruct (strptime_Ym other s); [discriminate|]. auto.
  - left. injection Hraise as <-. auto.
Qed.

Lemma convert_month_to_datetime_raises_witness :
  convert_month_to_datetime strict_format bad_month_frame "month"
  = Raise ValueError
  /\ "month" ∈ df_columns bad_month_frame.
Proof.
  assert (E : convert_month_to_datetime strict_format bad_month_frame "month"
              = Raise ValueError) by by_compute.
  split; [exact E|].
  destruct (convert_month_to_datetime_raises _ _ _ _ E) as [[H _]|(_ & H & _)];
    [discriminate H | exact H].
Defined.

(** ** Deduplicator: the counts of missing values *)

Lemma count_true_le (l : list bool) : (count_true l <= length l)%nat.
Proof.
  unfold count_true. induction l as [|b l IH]; simpl; [lia|].
  destruct b; simpl; lia.
Qed.

Lemma count_true_sublist {A : Type} (f : A -> bool) (l1 l2 : list A) :
  sublist l1 l2 ->
  (count_true (map f l1) <= count_true (map f l2))%nat.
Proof.
  unfold count_true. induction 1 as [|x l1 l2 _ IH|x l1 l2 _ IH]; simpl.
  - lia.
  - destruct (f x); simpl; lia.
  - destruct (f x); simpl; lia.
Qed.

Lemma count_true_zero {A : Type} (f : A -> bool) (l : list A) :
  count_true (map f l) = O <-> forall a, a ∈ l -> f a = false.
Proof.
  unfold count_true. induction l as [|x l IH]; simpl.
  - split; [intros _ a Ha; inversion Ha | reflexivity].
  - destruct (f x) eqn:E; simpl.
    + split; [discriminate|]. intros H. specialize (H x). rewrite E in H.
      discriminate H. left.
    + rewrite IH. split.
      * intros H a Ha. apply elem_of_cons in Ha as [->|Ha]; auto.
      * intros H a Ha. apply H. now right.
Qed.

Lemma cell_key_isna (v w : pyval) :
  cell_key v = cell_key w -> isna v = isna w.
Proof.
  destruct v as [| |[| | |q]|n|s|d], w as [| |[| | |q']|n'|s'|d'];
    simpl; try reflexivity; discriminate.
Qed.

Lemma row_key_isna (cols : list string) (r r' : gmap string pyval)
  (c : string) :
  c ∈ cols -> row_key cols r = row_key cols r' ->
  isna (cell r c) = isna (cell r' c).
Proof.
  unfold row_key. induction cols as [|c0 cols IH]; intros Hc H.
  - inversion Hc.
  - simpl in H. injection H as H0 H.
    apply elem_of_cons in Hc as [->|Hc]; [now apply cell_key_isna | auto].
Qed.

(** X21.  The counts of missing values that are printed last are those of
    the returned table, one for every column and in the order of the
    columns: a count is at most the number of rows that are left and at
    most the count in the given table, and it is zero exactly when the
    given table has no missing value in that column. *)
Theorem clean_dataset_missing_values (df : DataFrame) (dataset_name : string) :
  let df1 := snd (clean_dataset df dataset_name) in
  let missing (d : DataFrame) (c : string) :=
    count_true (map (fun r => isna (cell r c)) (df_rows d)) in
  exists counts,
    nth 3 (fst (clean_dataset df dataset_name)) (PStr EmptyString)
    = PCounts counts
    /\ map fst counts = df_columns df
    /\ forall c n, (c, n) ∈ counts ->
         n = missing df1 c
         /\ (n <= length (df_rows df1))%nat
         /\ (n <= missing df c)%nat
         /\ (n = O <-> missing df c = O).
Proof.
  intros df1 missing. unfold df1, missing.
  cbn [clean_dataset snd fst nth]. eexists. split; [reflexivity|].
  split.
  { unfold isna_sum. cbn [drop_duplicates df_columns].
    rewrite map_map. apply map_id. }
  intros c n Hin.
  unfold isna_sum in Hin. cbn [drop_duplicates df_columns df_rows] in Hin.
  apply list_elem_of_In, in_map_iff in Hin as (c' & [= -> <-] & Hc).
  apply list_elem_of_In in Hc.
  cbn [drop_duplicates df_rows].
  split; [reflexivity|]. split.
  { etransitivity; [apply count_true_le|]. now rewrite length_map. }
  split; [apply count_true_sublist, select_sublist|].
  rewrite !count_true_zero. split.
  - intros H r Hr.
    pose proof (duplicated_from_kept []
                  (map (row_key (df_columns df)) (df_rows df))) as (_ & _ & Hcov).
    fold (duplicated df) in Hcov. rewrite <- select_map in Hcov.
    destruct (Hcov (row_key (df_columns df) r)) as [Hk|Hk].
    + apply list_elem_of_In, in_map. now apply list_elem_of_In.
    + apply list_elem_of_In, in_map_iff in Hk as (r' & Hkey & Hr').
      apply list_elem_of_In in Hr'.
      rewrite <- (row_key_isna (df_columns df) r' r c Hc Hkey). now apply H.
    + inversion Hk.
  - intros H r Hr. apply H.
    eapply elem_of_sublist; [exact Hr | apply select_sublist].
Qed.
